(** * Real-time collaboration manager (src/Plasmo/real-time-collaboration.ts)

    A shallow embedding of the [CollaborationManager] class: the edit
    record and [transformEdit], the event system ([on], [off], [emit]),
    the inbound dispatcher [handleMessage], [sendEdit], [joinRoom], and the
    connection life cycle ([connect], the socket handlers, [reconnect],
    the heartbeat, [disconnect], [destroy]).

    JavaScript numbers that the code uses as offsets, lengths, timestamps
    and delays are integers here ([Z]); strings are [string]; the [Map]
    fields are finite maps; arrays are lists, most recent last. *)

From Stdlib Require Import ZArith String Ascii List Bool Lia.
From stdpp Require Import gmap strings list fin_maps.
Import ListNotations.

Local Open Scope string_scope.
Local Open Scope list_scope.
Local Open Scope Z_scope.

(** ** Edits *)

Inductive EditType := Insert | Delete | Replace.

(** [CollaborationEdit]; [length] is the optional field [length?]. *)
Record CollaborationEdit := mkEdit {
  edit_id : string;
  edit_type : EditType;
  edit_position : Z;
  edit_content : string;
  edit_length : option Z;
  edit_userId : string;
  edit_timestamp : Z
}.

(** [Omit<CollaborationEdit, 'id' | 'userId' | 'timestamp'>], the argument
    of [sendEdit]. *)
Record EditDraft := mkDraft {
  draft_type : EditType;
  draft_position : Z;
  draft_content : string;
  draft_length : option Z
}.

(** [{ ...edit, position: p }] *)
Definition with_position (e : CollaborationEdit) (p : Z) : CollaborationEdit :=
  {| edit_id := edit_id e; edit_type := edit_type e; edit_position := p;
     edit_content := edit_content e; edit_length := edit_length e;
     edit_userId := edit_userId e; edit_timestamp := edit_timestamp e |}.

(** [e.length || 0]: an absent length, and the falsy length [0], give [0]. *)
Definition length_or_0 (o : option Z) : Z :=
  match o with
  | Some n => n
  | None => 0
  end.

(** [content.length] *)
Definition content_length (e : CollaborationEdit) : Z :=
  Z.of_nat (String.length (edit_content e)).

(** [transformEdit(edit, againstEdit)], lines 318-348. [transformed] starts
    as a copy of [edit] and only its position is ever reassigned. *)
Definition transformEdit (edit againstEdit : CollaborationEdit) : CollaborationEdit :=
  if edit_timestamp edit <=? edit_timestamp againstEdit then edit
  else
    let transformed := edit in
    match edit_type againstEdit with
    | Insert =>
        if edit_position edit >=? edit_position againstEdit
        then with_position transformed (edit_position transformed + content_length againstEdit)
        else transformed
    | Delete =>
        if edit_position edit >? edit_position againstEdit
        then with_position transformed
               (edit_position transformed - length_or_0 (edit_length againstEdit))
        else transformed
    | Replace =>
        if edit_position edit >? edit_position againstEdit
        then
          let oldLength := length_or_0 (edit_length againstEdit) in
          let newLength := content_length againstEdit in
          with_position transformed (edit_position transformed + (newLength - oldLength))
        else transformed
    end.

(** ** Applying an edit to a text *)

(** [splice t p n c]: the text [t] with the [n] characters from offset [p]
    replaced by [c]. *)
Definition splice (t : list ascii) (p n : nat) (c : list ascii) : list ascii :=
  take p t ++ c ++ drop (p + n) t.

(** Modelled from the spec: the number of characters an edit removes
    ("length?: integer (delete/replace extent)"; an insert removes none). *)
Definition extent (e : CollaborationEdit) : Z :=
  match edit_type e with
  | Insert => 0
  | Delete | Replace => length_or_0 (edit_length e)
  end.

(** Modelled from the spec: the characters an edit puts in ("content:
    string (insert/replace payload)"; a delete puts in none). *)
Definition payload (e : CollaborationEdit) : list ascii :=
  match edit_type e with
  | Insert | Replace => list_ascii_of_string (edit_content e)
  | Delete => []
  end.

(** Modelled from the spec: the source keeps the edit log but never applies
    an edit to a text; the effect of an edit on the shared text is missing.
    Following the data model (position is a non-negative offset into the
    text) and the validation rule (a negative position, or an extent
    exceeding the remaining text, is malformed), an edit either produces
    the new text or is rejected. *)
Definition applyEdit (text : string) (e : CollaborationEdit) : option string :=
  let t := list_ascii_of_string text in
  let p := edit_position e in
  let n := extent e in
  if (0 <=? p) && (0 <=? n) && (p + n <=? Z.of_nat (length t))
  then Some (string_of_list_ascii (splice t (Z.to_nat p) (Z.to_nat n) (payload e)))
  else None.

(** Applying [a] and then [b]. *)
Definition applyTwo (text : string) (a b : CollaborationEdit) : option string :=
  match applyEdit text a with
  | Some text' => applyEdit text' b
  | None => None
  end.

(** The convergence equation for a pair of concurrent edits on [text]: one
    replica applies [a] and then [b] transformed against [a], the other
    applies [b] and then [a] transformed against [b]. *)
Definition converges (text : string) (a b : CollaborationEdit) : Prop :=
  applyTwo text a (transformEdit b a) = applyTwo text b (transformEdit a b).

(** The example of the specification: "ABCD", A = insert("X", pos=1) by
    "u1", B = delete(pos=2, len=1) by "u2", with the timestamps left free. *)
Definition exampleA (ts : Z) : CollaborationEdit :=
  mkEdit "a" Insert 1 "X" None "u1" ts.
Definition exampleB (ts : Z) : CollaborationEdit :=
  mkEdit "b" Delete 2 "" (Some 1) "u2" ts.

(** ** Presence, rooms and chat messages *)

Record Cursor := mkCursor { cursor_x : Z; cursor_y : Z }.
Record Selection := mkSelection { selection_start : Z; selection_end : Z }.
Inductive UserStatus := Online | Away | Offline.

Record CollaborationUser := mkUser {
  user_id : string;
  user_name : string;
  user_email : string;
  user_avatar : option string;
  user_color : string;
  user_cursor : option Cursor;
  user_selection : option Selection;
  user_lastSeen : Z;
  user_status : UserStatus
}.

Record Permissions := mkPermissions {
  canEdit : list string;
  canView : list string;
  isPublic : bool
}.

Record CollaborationRoom := mkRoom {
  room_id : string;
  room_name : string;
  room_description : option string;
  room_users : list CollaborationUser;
  room_createdAt : Z;
  room_updatedAt : Z;
  room_permissions : Permissions
}.

Inductive MessageType := TText | TCursor | TSelection | TEdit | TSystem | TReaction.

Record CollaborationMessage := mkMessage {
  message_id : string;
  message_type : MessageType;
  message_userId : string;
  message_roomId : string;
  message_content : string;
  message_timestamp : Z
}.

(** [user.cursor = c] and [user.selection = sel] *)
Definition with_cursor (u : CollaborationUser) (c : Cursor) : CollaborationUser :=
  mkUser (user_id u) (user_name u) (user_email u) (user_avatar u) (user_color u)
         (Some c) (user_selection u) (user_lastSeen u) (user_status u).
Definition with_selection (u : CollaborationUser) (sel : Selection) : CollaborationUser :=
  mkUser (user_id u) (user_name u) (user_email u) (user_avatar u) (user_color u)
         (user_cursor u) (Some sel) (user_lastSeen u) (user_status u).

(** ** Wire messages, event payloads, callbacks *)

(** What [handleMessage] receives, by its [type] field. *)
Inductive ServerMessage :=
| MPong
| MUserJoined (user : CollaborationUser)
| MUserLeft (userId : string)
| MUserUpdated (user : CollaborationUser)
| MRoomJoined (room : CollaborationRoom)
| MMessage (message : CollaborationMessage)
| MEdit (edit : CollaborationEdit)
| MCursorUpdate (userId : string) (cursor : Cursor)
| MSelectionUpdate (userId : string) (selection : Selection)
| MWebrtcOffer (peerId : string)
| MWebrtcAnswer (peerId : string)
| MWebrtcIceCandidate (peerId : string)
| MUnknown (type : string).

(** What [send] serialises onto the socket (the messages of the modelled
    methods). *)
Inductive ClientMessage :=
| OPing (timestamp : Z)
| OUserUpdate (user : CollaborationUser)
| ORoomJoin (roomId userId : string)
| ORoomLeave (roomId userId : string)
| OEdit (edit : CollaborationEdit).

(** The second argument of [emit]. *)
Inductive Payload :=
| PUndefined
| PCloseEvent (wasClean : bool)
| PErrorEvent
| PUser (user : CollaborationUser)
| PUserId (userId : string)
| PRoom (room : CollaborationRoom)
| PMessage (message : CollaborationMessage)
| PEdit (edit : CollaborationEdit)
| PCursor (userId : string) (cursor : Cursor)
| PSelection (userId : string) (selection : Selection).

(** A call either returns or throws. *)
Inductive Outcome (A : Type) :=
| Returns (a : A)
| Throws (err : string).
Arguments Returns {A} a.
Arguments Throws {A} err.

(** A registered listener: [cb_id] is the identity of the function object
    (what [indexOf] compares), [cb_run] what calling it on a payload does.
    Listeners are taken not to call back into the manager. *)
Record Callback := mkCallback {
  cb_id : nat;
  cb_run : Payload -> Outcome unit
}.

(** ** Browser objects: sockets and timers *)

Inductive ReadyState := CONNECTING | OPEN | CLOSING | CLOSED.

(** A [WebSocket] made by [connect]; its handlers close over [serverUrl]
    and [authToken]. *)
Record WebSocket := mkWebSocket {
  ws_serverUrl : string;
  ws_authToken : string;
  ws_readyState : ReadyState
}.

(** A pending timer: the heartbeat interval of [startHeartbeat], or the
    one-shot timeout of [reconnect] with its closure. *)
Inductive Timer :=
| HeartbeatTimer
| ReconnectTimer (delay : Z) (serverUrl authToken : string).

Inductive PeerStatus := PeerConnecting | PeerConnected | PeerDisconnected | PeerFailed.

(** What the manager does to the outside, in order. *)
Inductive Effect :=
| Sent (data : ClientMessage)
| Called (cb : nat) (data : Payload)
| SocketClosed (sid : nat) (code : Z)
| SetInterval (tid : nat) (ms : Z)
| SetTimeout (tid : nat) (ms : Z)
| ClearInterval (tid : nat).

(** ** The manager's state *)

(** The fields of [CollaborationManager] ([websocket] to
    [heartbeatInterval]; [websocket] and [heartbeatInterval] are handles),
    followed by the browser side: the sockets and timers that exist, the
    next handles, which URLs the [WebSocket] constructor accepts, and the
    effects so far. *)
Record State := mkState {
  websocket : option nat;
  currentUser : option CollaborationUser;
  currentRoom : option CollaborationRoom;
  users : gmap string CollaborationUser;
  messages : list CollaborationMessage;
  edits : list CollaborationEdit;
  webrtcConnections : gmap string PeerStatus;
  eventListeners : gmap string (list Callback);
  reconnectAttempts : Z;
  heartbeatInterval : option nat;
  sockets : gmap nat WebSocket;
  next_socket : nat;
  timers : gmap nat Timer;
  next_timer : nat;
  accepts_url : string -> bool;
  trace : list Effect
}.

Definition maxReconnectAttempts : Z := 5.

(** Field updates. *)
Definition set_websocket (v : option nat) (s : State) : State :=
  mkState v (currentUser s) (currentRoom s) (users s) (messages s) (edits s)
    (webrtcConnections s) (eventListeners s) (reconnectAttempts s)
    (heartbeatInterval s) (sockets s) (next_socket s) (timers s)
    (next_timer s) (accepts_url s) (trace s).
Definition set_currentUser (v : option CollaborationUser) (s : State) : State :=
  mkState (websocket s) v (currentRoom s) (users s) (messages s) (edits s)
    (webrtcConnections s) (eventListeners s) (reconnectAttempts s)
    (heartbeatInterval s) (sockets s) (next_socket s) (timers s)
    (next_timer s) (accepts_url s) (trace s).
Definition set_currentRoom (v : option CollaborationRoom) (s : State) : State :=
  mkState (websocket s) (currentUser s) v (users s) (messages s) (edits s)
    (webrtcConnections s) (eventListeners s) (reconnectAttempts s)
    (heartbeatInterval s) (sockets s) (next_socket s) (timers s)
    (next_timer s) (accepts_url s) (trace s).
Definition set_users (v : gmap string CollaborationUser) (s : State) : State :=
  mkState (websocket s) (currentUser s) (currentRoom s) v (messages s)
    (edits s) (webrtcConnections s) (eventListeners s) (reconnectAttempts s)
    (heartbeatInterval s) (sockets s) (next_socket s) (timers s)
    (next_timer s) (accepts_url s) (trace s).
Definition set_messages (v : list CollaborationMessage) (s : State) : State :=
  mkState (websocket s) (currentUser s) (currentRoom s) (users s) v (edits s)
    (webrtcConnections s) (eventListeners s) (reconnectAttempts s)
    (heartbeatInterval s) (sockets s) (next_socket s) (timers s)
    (next_timer s) (accepts_url s) (trace s).
Definition set_edits (v : list CollaborationEdit) (s : State) : State :=
  mkState (websocket s) (currentUser s) (currentRoom s) (users s) (messages s)
    v (webrtcConnections s) (eventListeners s) (reconnectAttempts s)
    (heartbeatInterval s) (sockets s) (next_socket s) (timers s)
    (next_timer s) (accepts_url s) (trace s).
Definition set_webrtcConnections (v : gmap string PeerStatus) (s : State) : State :=
  mkState (websocket s) (currentUser s) (currentRoom s) (users s) (messages s)
    (edits s) v (eventListeners s) (reconnectAttempts s) (heartbeatInterval s)
    (sockets s) (next_socket s) (timers s) (next_timer s) (accepts_url s)
    (trace s).
Definition set_eventListeners (v : gmap string (list Callback)) (s : State) : State :=
  mkState (websocket s) (currentUser s) (currentRoom s) (users s) (messages s)
    (edits s) (webrtcConnections s) v (reconnectAttempts s)
    (heartbeatInterval s) (sockets s) (next_socket s) (timers s)
    (next_timer s) (accepts_url s) (trace s).
Definition set_reconnectAttempts (v : Z) (s : State) : State :=
  mkState (websocket s) (currentUser s) (currentRoom s) (users s) (messages s)
    (edits s) (webrtcConnections s) (eventListeners s) v (heartbeatInterval s)
    (sockets s) (next_socket s) (timers s) (next_timer s) (accepts_url s)
    (trace s).
Definition set_heartbeatInterval (v : option nat) (s : State) : State :=
  mkState (websocket s) (currentUser s) (currentRoom s) (users s) (messages s)
    (edits s) (webrtcConnections s) (eventListeners s) (reconnectAttempts s) v
    (sockets s) (next_socket s) (timers s) (next_timer s) (accepts_url s)
    (trace s).
Definition set_sockets (v : gmap nat WebSocket) (s : State) : State :=
  mkState (websocket s) (currentUser s) (currentRoom s) (users s) (messages s)
    (edits s) (webrtcConnections s) (eventListeners s) (reconnectAttempts s)
    (heartbeatInterval s) v (next_socket s) (timers s) (next_timer s)
    (accepts_url s) (trace s).
Definition set_next_socket (v : nat) (s : State) : State :=
  mkState (websocket s) (currentUser s) (currentRoom s) (users s) (messages s)
    (edits s) (webrtcConnections s) (eventListeners s) (reconnectAttempts s)
    (heartbeatInterval s) (sockets s) v (timers s) (next_timer s)
    (accepts_url s) (trace s).
Definition set_timers (v : gmap nat Timer) (s : State) : State :=
  mkState (websocket s) (currentUser s) (currentRoom s) (users s) (messages s)
    (edits s) (webrtcConnections s) (eventListeners s) (reconnectAttempts s)
    (heartbeatInterval s) (sockets s) (next_socket s) v (next_timer s)
    (accepts_url s) (trace s).
Definition set_next_timer (v : nat) (s : State) : State :=
  mkState (websocket s) (currentUser s) (currentRoom s) (users s) (messages s)
    (edits s) (webrtcConnections s) (eventListeners s) (reconnectAttempts s)
    (heartbeatInterval s) (sockets s) (next_socket s) (timers s) v
    (accepts_url s) (trace s).
Definition set_accepts_url (v : string -> bool) (s : State) : State :=
  mkState (websocket s) (currentUser s) (currentRoom s) (users s) (messages s)
    (edits s) (webrtcConnections s) (eventListeners s) (reconnectAttempts s)
    (heartbeatInterval s) (sockets s) (next_socket s) (timers s)
    (next_timer s) v (trace s).
Definition set_trace (v : list Effect) (s : State) : State :=
  mkState (websocket s) (currentUser s) (currentRoom s) (users s) (messages s)
    (edits s) (webrtcConnections s) (eventListeners s) (reconnectAttempts s)
    (heartbeatInterval s) (sockets s) (next_socket s) (timers s)
    (next_timer s) (accepts_url s) v.

(** A freshly constructed manager in a browser that accepts the URLs
    [accepts]. Timer handles start at 1, as in browsers. *)
Definition initial (accepts : string -> bool) : State :=
  mkState None None None ∅ [] [] ∅ ∅ 0 None ∅ 0%nat ∅ 1%nat accepts [].

(** ** Methods as state transformers that may throw *)

(** A method runs on the state and returns or throws; what it changed
    before throwing stays changed. *)
Definition M (A : Type) : Type := State -> Outcome A * State.

Definition ret {A : Type} (a : A) : M A := fun s => (Returns a, s).

Definition bind {A B : Type} (c : M A) (k : A -> M B) : M B :=
  fun s =>
    match c s with
    | (Returns a, s') => k a s'
    | (Throws err, s') => (Throws err, s')
    end.

Definition gets {A : Type} (f : State -> A) : M A := fun s => (Returns (f s), s).
Definition modify (f : State -> State) : M unit := fun s => (Returns tt, f s).
Definition effect (e : Effect) : M unit :=
  modify (fun s => set_trace (trace s ++ [e]) s).

Notation "x <- c ;; k" := (bind c (fun x => k))
  (at level 100, c at next level, right associativity).
Notation "c ;; k" := (bind c (fun _ => k))
  (at level 100, right associativity).

(** *** Event system, lines 582-604 *)

(** [on(event, callback)] *)
Definition on (event : string) (callback : Callback) : M unit :=
  modify (fun s =>
    set_eventListeners
      (<[event := default [] (eventListeners s !! event) ++ [callback]]> (eventListeners s)) s).

(** [listeners.splice(listeners.indexOf(callback), 1)] when the index is
    not -1. *)
Fixpoint remove_first (id : nat) (listeners : list Callback) : list Callback :=
  match listeners with
  | [] => []
  | cb :: rest => if Nat.eqb (cb_id cb) id then rest else cb :: remove_first id rest
  end.

(** [off(event, callback)] *)
Definition off (event : string) (callback : Callback) : M unit :=
  modify (fun s =>
    match eventListeners s !! event with
    | Some listeners =>
        set_eventListeners
          (<[event := remove_first (cb_id callback) listeners]> (eventListeners s)) s
    | None => s
    end).

(** [listeners.forEach(callback => callback(data))]: the calls are made in
    array order, and a call that throws ends the loop with its exception. *)
Fixpoint forEach_call (listeners : list Callback) (data : Payload) : M unit :=
  match listeners with
  | [] => ret tt
  | callback :: rest =>
      effect (Called (cb_id callback) data) ;;
      (fun s => (cb_run callback data, s)) ;;
      forEach_call rest data
  end.

(** [emit(event, data)] *)
Definition emit (event : string) (data : Payload) : M unit :=
  listeners <- gets (fun s => eventListeners s !! event) ;;
  match listeners with
  | Some listeners => forEach_call listeners data
  | None => ret tt
  end.

(** *** Sending, lines 575-579 *)

(** [this.websocket?.readyState === WebSocket.OPEN] *)
Definition socket_is_open (s : State) : bool :=
  match websocket s with
  | Some sid =>
      match sockets s !! sid with
      | Some ws => match ws_readyState ws with OPEN => true | _ => false end
      | None => false
      end
  | None => false
  end.

Definition send (data : ClientMessage) : M unit :=
  isOpen <- gets socket_is_open ;;
  if isOpen then effect (Sent data) else ret tt.

(** *** Inbound dispatch, lines 497-573 *)

(** [room.users.forEach(user => this.users.set(user.id, user))] *)
Definition seed_users (members : list CollaborationUser)
    (table : gmap string CollaborationUser) : gmap string CollaborationUser :=
  fold_left (fun m user => <[user_id user := user]> m) members table.

(** [this.edits.reduce((edit, existingEdit) => this.transformEdit(edit,
    existingEdit), data.edit)] *)
Definition transform_incoming (log : list CollaborationEdit) (e : CollaborationEdit)
    : CollaborationEdit :=
  fold_left transformEdit log e.

(** [handleMessage(data)]. User objects are held by value: the table entry
    that [cursor_update] and [selection_update] assign to is the one stored
    under the key. The WebRTC cases start an asynchronous negotiation on
    browser objects and change no field of the manager before their first
    [await]; the default case only logs. *)
Definition handleMessage (data : ServerMessage) : M unit :=
  match data with
  | MPong => ret tt
  | MUserJoined user =>
      modify (fun s => set_users (<[user_id user := user]> (users s)) s) ;;
      emit "user_joined" (PUser user)
  | MUserLeft userId =>
      modify (fun s => set_users (delete userId (users s)) s) ;;
      emit "user_left" (PUserId userId)
  | MUserUpdated user =>
      modify (fun s => set_users (<[user_id user := user]> (users s)) s) ;;
      emit "user_updated" (PUser user)
  | MRoomJoined room =>
      modify (set_currentRoom (Some room)) ;;
      modify (fun s => set_users (seed_users (room_users room) (users s)) s) ;;
      emit "room_joined" (PRoom room)
  | MMessage message =>
      modify (fun s => set_messages (messages s ++ [message]) s) ;;
      emit "message" (PMessage message)
  | MEdit edit =>
      log <- gets edits ;;
      let transformedEdit := transform_incoming log edit in
      modify (fun s => set_edits (edits s ++ [transformedEdit]) s) ;;
      emit "edit" (PEdit transformedEdit)
  | MCursorUpdate userId cursor =>
      user <- gets (fun s => users s !! userId) ;;
      match user with
      | Some user =>
          modify (fun s => set_users (<[userId := with_cursor user cursor]> (users s)) s) ;;
          emit "cursor_update" (PCursor userId cursor)
      | None => ret tt
      end
  | MSelectionUpdate userId selection =>
      selectionUser <- gets (fun s => users s !! userId) ;;
      match selectionUser with
      | Some selectionUser =>
          modify (fun s =>
            set_users (<[userId := with_selection selectionUser selection]> (users s)) s) ;;
          emit "selection_update" (PSelection userId selection)
      | None => ret tt
      end
  | MWebrtcOffer _ | MWebrtcAnswer _ | MWebrtcIceCandidate _ => ret tt
  | MUnknown _ => ret tt
  end.

(** *** Current user, rooms and edits, lines 151-162, 220-243, 294-311 *)

(** [setCurrentUser(user)]: the argument carries every field but
    [lastSeen] and [status], which the method sets; [now] is [Date.now()]. *)
Definition setCurrentUser (user : CollaborationUser) (now : Z) : M unit :=
  let current :=
    mkUser (user_id user) (user_name user) (user_email user) (user_avatar user)
           (user_color user) (user_cursor user) (user_selection user) now Online in
  modify (set_currentUser (Some current)) ;;
  send (OUserUpdate current).

(** [joinRoom(roomId)] *)
Definition joinRoom (roomId : string) : M bool :=
  user <- gets currentUser ;;
  match user with
  | None => ret false
  | Some user =>
      send (ORoomJoin roomId (user_id user)) ;;
      ret true
  end.

(** [leaveRoom()] *)
Definition leaveRoom : M unit :=
  room <- gets currentRoom ;;
  user <- gets currentUser ;;
  match room, user with
  | Some room, Some user =>
      send (ORoomLeave (room_id room) (user_id user)) ;;
      modify (set_currentRoom None) ;;
      modify (set_users ∅)
  | _, _ => ret tt
  end.

(** [{ ...edit, id, userId, timestamp }] *)
Definition fullEdit (edit : EditDraft) (id userId : string) (timestamp : Z)
    : CollaborationEdit :=
  mkEdit id (draft_type edit) (draft_position edit) (draft_content edit)
         (draft_length edit) userId timestamp.

(** [sendEdit(edit)]; [newId] is what [generateId()] returns and [now] what
    [Date.now()] returns during the call. *)
Definition sendEdit (edit : EditDraft) (newId : string) (now : Z) : M unit :=
  user <- gets currentUser ;;
  room <- gets currentRoom ;;
  match user, room with
  | Some user, Some _ =>
      let fullEdit := fullEdit edit newId (user_id user) now in
      modify (fun s => set_edits (edits s ++ [fullEdit]) s) ;;
      send (OEdit fullEdit) ;;
      emit "edit" (PEdit fullEdit)
  | _, _ => ret tt
  end.

(** *** Heartbeat and reconnection, lines 115-139 *)

(** [setInterval(f, ms)] and [setTimeout(f, ms)]: the browser registers the
    timer under a fresh handle. *)
Definition new_timer (t : Timer) (e : nat -> Effect) : M nat :=
  tid <- gets next_timer ;;
  modify (fun s => set_next_timer (S tid) (set_timers (<[tid := t]> (timers s)) s)) ;;
  effect (e tid) ;;
  ret tid.

(** [clearInterval(tid)] *)
Definition clearInterval (tid : nat) : M unit :=
  modify (fun s => set_timers (delete tid (timers s)) s) ;;
  effect (ClearInterval tid).

(** [startHeartbeat()] *)
Definition startHeartbeat : M unit :=
  tid <- new_timer HeartbeatTimer (fun tid => SetInterval tid 30000) ;;
  modify (set_heartbeatInterval (Some tid)).

(** [stopHeartbeat()]; a stored handle is truthy (browser handles are
    non-zero). *)
Definition stopHeartbeat : M unit :=
  h <- gets heartbeatInterval ;;
  match h with
  | Some tid =>
      clearInterval tid ;;
      modify (set_heartbeatInterval None)
  | None => ret tt
  end.

(** The body of the interval callback; [now] is [Date.now()]. *)
Definition heartbeat_tick (now : Z) : M unit :=
  isOpen <- gets socket_is_open ;;
  if isOpen then send (OPing now) else ret tt.

(** [Math.min(1000 * Math.pow(2, attempts), 30000)] *)
Definition reconnect_delay (attempts : Z) : Z :=
  Z.min (1000 * 2 ^ attempts) 30000.

(** [reconnect(serverUrl, authToken)] *)
Definition reconnect (serverUrl authToken : string) : M unit :=
  modify (fun s => set_reconnectAttempts (reconnectAttempts s + 1) s) ;;
  attempts <- gets reconnectAttempts ;;
  let delay := reconnect_delay attempts in
  _ <- new_timer (ReconnectTimer delay serverUrl authToken)
                 (fun tid => SetTimeout tid delay) ;;
  ret tt.

(** *** Connection, lines 78-113 and 141-148 *)

(** [connect(serverUrl, authToken)]: when the constructor throws, the
    [catch] returns [false]; otherwise the new socket, with its four
    handlers, becomes [this.websocket]. *)
Definition connect (serverUrl authToken : string) : M bool :=
  ok <- gets (fun s => accepts_url s (String.append serverUrl (String.append "?token=" authToken))) ;;
  if ok then
    sid <- gets next_socket ;;
    modify (fun s =>
      set_websocket (Some sid)
        (set_next_socket (S sid)
           (set_sockets (<[sid := mkWebSocket serverUrl authToken CONNECTING]> (sockets s)) s))) ;;
    ret true
  else ret false.

(** [websocket.onopen] *)
Definition onopen : M unit :=
  modify (set_reconnectAttempts 0) ;;
  startHeartbeat ;;
  emit "connected" PUndefined.

(** [websocket.onclose], the handler made by [connect(serverUrl,
    authToken)] *)
Definition onclose (serverUrl authToken : string) (wasClean : bool) : M unit :=
  stopHeartbeat ;;
  emit "disconnected" (PCloseEvent wasClean) ;;
  attempts <- gets reconnectAttempts ;;
  if negb wasClean && (attempts <? maxReconnectAttempts)
  then reconnect serverUrl authToken
  else ret tt.

(** [websocket.onerror] *)
Definition onerror : M unit :=
  emit "error" PErrorEvent.

Definition set_readyState (sid : nat) (st : ReadyState) (s : State) : State :=
  match sockets s !! sid with
  | Some ws =>
      set_sockets (<[sid := mkWebSocket (ws_serverUrl ws) (ws_authToken ws) st]> (sockets s)) s
  | None => s
  end.

(** [websocket.close(code, reason)]: a socket that is connecting or open
    starts closing; on a closing or closed one the call does nothing. *)
Definition ws_close (sid : nat) (code : Z) : M unit :=
  effect (SocketClosed sid code) ;;
  modify (fun s =>
    match sockets s !! sid with
    | Some ws =>
        match ws_readyState ws with
        | CONNECTING | OPEN => set_readyState sid CLOSING s
        | CLOSING | CLOSED => s
        end
    | None => s
    end).

(** [disconnect()] *)
Definition disconnect : M unit :=
  ws <- gets websocket ;;
  match ws with
  | Some sid =>
      ws_close sid 1000 ;;
      modify (set_websocket None)
  | None => ret tt
  end ;;
  stopHeartbeat ;;
  modify (set_webrtcConnections ∅).

(** [destroy()] *)
Definition destroy : M unit :=
  disconnect ;;
  modify (set_eventListeners ∅) ;;
  modify (set_users ∅) ;;
  modify (set_messages []) ;;
  modify (set_edits []).

(** ** The browser's event loop *)

(** What the browser can deliver to the manager: the events of a socket,
    and a timer coming due ([now] is the clock at that moment). *)
Inductive Event :=
| SocketOpen (sid : nat)
| SocketMessage (sid : nat) (data : ServerMessage)
| SocketError (sid : nat)
| SocketClose (sid : nat) (wasClean : bool)
| TimerFire (tid : nat) (now : Z).

(** One turn of the event loop: the handler registered for the event runs.
    A socket opens once, from [CONNECTING]; it closes once; a one-shot
    timeout is gone once it has fired, an interval stays; an event for a
    socket or timer that does not exist runs nothing. *)
Definition deliver (ev : Event) : M unit :=
  match ev with
  | SocketOpen sid =>
      ws <- gets (fun s => sockets s !! sid) ;;
      match ws with
      | Some (mkWebSocket _ _ CONNECTING) =>
          modify (set_readyState sid OPEN) ;;
          onopen
      | _ => ret tt
      end
  | SocketMessage sid data =>
      ws <- gets (fun s => sockets s !! sid) ;;
      match ws with
      | Some (mkWebSocket _ _ OPEN) | Some (mkWebSocket _ _ CLOSING) => handleMessage data
      | _ => ret tt
      end
  | SocketError sid =>
      ws <- gets (fun s => sockets s !! sid) ;;
      match ws with
      | Some _ => onerror
      | None => ret tt
      end
  | SocketClose sid wasClean =>
      ws <- gets (fun s => sockets s !! sid) ;;
      match ws with
      | Some (mkWebSocket _ _ CLOSED) | None => ret tt
      | Some (mkWebSocket serverUrl authToken _) =>
          modify (set_readyState sid CLOSED) ;;
          onclose serverUrl authToken wasClean
      end
  | TimerFire tid now =>
      t <- gets (fun s => timers s !! tid) ;;
      match t with
      | Some HeartbeatTimer => heartbeat_tick now
      | Some (ReconnectTimer _ serverUrl authToken) =>
          modify (fun s => set_timers (delete tid (timers s)) s) ;;
          _ <- connect serverUrl authToken ;;
          ret tt
      | None => ret tt
      end
  end.

(** The state after a method or handler has run. *)
Definition exec {A : Type} (c : M A) (s : State) : State := snd (c s).

(** The events are handled one after the other; an exception that escapes a
    handler ends that handler only. *)
Definition run (evs : list Event) (s : State) : State :=
  fold_left (fun s ev => exec (deliver ev) s) evs s.

(** The delays of the timeouts set so far, in order. *)
Definition timeouts_set (tr : list Effect) : list Z :=
  omap (fun e => match e with SetTimeout _ ms => Some ms | _ => None end) tr.

(** The listeners called so far, in order. *)
Definition calls_made (tr : list Effect) : list (nat * Payload) :=
  omap (fun e => match e with Called cb data => Some (cb, data) | _ => None end) tr.

(** Whether a timer is a scheduled reconnect. *)
Definition is_reconnect (t : Timer) : bool :=
  match t with
  | ReconnectTimer _ _ _ => true
  | HeartbeatTimer => false
  end.

(** ** Statements of the specification, and inputs for the examples *)

(** The incoming-edit rule in the words of the specification: the edit is
    transformed against the log entries its author had not observed, and
    not against those the author had; [observed] tells them apart. *)
Definition transform_unobserved (observed : CollaborationEdit -> bool)
    (log : list CollaborationEdit) (e : CollaborationEdit) : CollaborationEdit :=
  fold_left transformEdit (List.filter (fun o => negb (observed o)) log) e.

(** An author knows the edits they made themselves. *)
Definition own_edit (author : string) (o : CollaborationEdit) : bool :=
  String.eqb (edit_userId o) author.

(** "u1" types "X" at offset 0 and then, seeing it, "Y" at offset 1. *)
Definition typedX : CollaborationEdit := mkEdit "x" Insert 0 "X" None "u1" 1.
Definition typedY : CollaborationEdit := mkEdit "y" Insert 1 "Y" None "u1" 2.

(** The log entries that [transformEdit] does not return early on: those
    with a timestamp strictly smaller than the incoming edit's. *)
Definition earlier_than (e : CollaborationEdit) (log : list CollaborationEdit)
    : list CollaborationEdit :=
  List.filter (fun o => edit_timestamp o <? edit_timestamp e) log.

(** The validation rule in the words of the specification: a draft is
    malformed when its position is negative, or when it is a delete whose
    length exceeds what remains of a text of [textLength] characters. *)
Definition malformed (textLength : Z) (d : EditDraft) : bool :=
  (draft_position d <? 0) ||
  match draft_type d with
  | Delete => textLength - draft_position d <? length_or_0 (draft_length d)
  | Insert | Replace => false
  end.

(** What the specification asks of appending a malformed draft: a
    [ValidationError], and a log of the same length. *)
Definition rejected (d : EditDraft) (newId : string) (now : Z) (s : State) : Prop :=
  fst (sendEdit d newId now s) = Throws "ValidationError" /\
  length (edits (exec (sendEdit d newId now) s)) = length (edits s).

Definition alice : CollaborationUser :=
  mkUser "u1" "Alice" "alice@example.org" None "red" None None 0 Online.
Definition bob : CollaborationUser :=
  mkUser "u2" "Bob" "bob@example.org" None "blue" None None 0 Online.
Definition carol : CollaborationUser :=
  mkUser "u3" "Carol" "carol@example.org" None "green" None None 0 Online.
Definition dave : CollaborationUser :=
  mkUser "u9" "Dave" "dave@example.org" None "grey" None None 0 Online.

Definition room_r1 : CollaborationRoom :=
  mkRoom "r1" "Room" None [alice; bob; carol] 0 0 (mkPermissions ["u1"] ["u1"] false).

(** A manager with a current user, in room "r1", with an empty log. *)
Definition in_room : State :=
  exec (handleMessage (MRoomJoined room_r1))
       (exec (setCurrentUser alice 0) (initial (fun _ => true))).

Definition negativeDraft : EditDraft := mkDraft Insert (-1) "Z" None.

(** A delete of 99 characters at offset 0, for a text that has none. *)
Definition longDelete : EditDraft := mkDraft Delete 0 "" (Some 99).

(** The listeners that [forEach] reaches: all of them up to and including
    the first that throws. *)
Fixpoint invoked (listeners : list Callback) (data : Payload) : list Callback :=
  match listeners with
  | [] => []
  | cb :: rest =>
      match cb_run cb data with
      | Returns _ => cb :: invoked rest data
      | Throws _ => [cb]
      end
  end.

(** How the [forEach] ends: with the exception of the first listener that
    throws, if any. *)
Fixpoint forEach_outcome (listeners : list Callback) (data : Payload) : Outcome unit :=
  match listeners with
  | [] => Returns tt
  | cb :: rest =>
      match cb_run cb data with
      | Returns _ => forEach_outcome rest data
      | Throws err => Throws err
      end
  end.

Definition call_of (data : Payload) (cb : Callback) : nat * Payload := (cb_id cb, data).
Definition called (data : Payload) (cb : Callback) : Effect := Called (cb_id cb) data.

(** What the specification asks of publishing: every subscriber is called,
    in subscription order, and the publisher gets no exception. *)
Definition isolated (event : string) (data : Payload) (s : State) : Prop :=
  forall listeners, eventListeners s !! event = Some listeners ->
    fst (emit event data s) = Returns tt /\
    calls_made (trace (exec (emit event data) s)) =
      calls_made (trace s) ++ map (call_of data) listeners.

Definition failing : Callback := mkCallback 1 (fun _ => Throws "boom").
Definition quiet : Callback := mkCallback 2 (fun _ => Returns tt).

(** [failing] subscribes to "edit" first, [quiet] second. *)
Definition two_listeners : State :=
  exec (on "edit" quiet) (exec (on "edit" failing) (initial (fun _ => true))).

(** What the specification asks of the table after [room_joined]: exactly
    the members, each under their id. *)
Definition exactly_members (members : list CollaborationUser)
    (table : gmap string CollaborationUser) : Prop :=
  size table = length members /\
  forall u, In u members -> table !! user_id u = Some u.

(** A session that already knows "u9" (a [user_joined] came first). *)
Definition knows_dave : State :=
  exec (handleMessage (MUserJoined dave))
       (exec (setCurrentUser alice 0) (initial (fun _ => true))).

(** The delete rule in the words of the specification: past the delete's
    position [p] the edit moves back by [L] but not below [p]; at or
    before [p] it keeps its position. *)
Definition clamped_delete_rule (E O : CollaborationEdit) : Prop :=
  edit_position (transformEdit E O) =
    if edit_position E >? edit_position O
    then Z.max (edit_position O) (edit_position E - length_or_0 (edit_length O))
    else edit_position E.

(** An edit at offset 3, made after a delete of 5 characters at offset 2. *)
Definition lateEdit : CollaborationEdit := mkEdit "e" Insert 3 "Y" None "u1" 2.
Definition wideDelete : CollaborationEdit := mkEdit "o" Delete 2 "" (Some 5) "u2" 1.

(** [k] connection attempts that fail one after the other: the socket
    [sid] closes uncleanly, the reconnect timer [tid] comes due and makes
    the socket [next], which closes uncleanly in its turn, and so on. *)
Fixpoint failed_attempts (k : nat) (sid next tid : nat) (now : Z) : list Event :=
  match k with
  | O => []
  | S k' =>
      SocketClose sid false :: TimerFire tid now ::
        failed_attempts k' next (S next) (S tid) now
  end.

(** No socket other than [sid] is still connecting, open or closing. *)
Definition only_live_socket (sid : nat) (s : State) : Prop :=
  forall sid' ws, sockets s !! sid' = Some ws -> sid' = sid \/ ws_readyState ws = CLOSED.

(** Every socket has closed. *)
Definition all_closed (s : State) : Prop :=
  forall sid ws, sockets s !! sid = Some ws -> ws_readyState ws = CLOSED.

(** No reconnect is scheduled. *)
Definition no_reconnect_pending (s : State) : Prop :=
  forall tid t, timers s !! tid = Some t -> is_reconnect t = false.

(** The "disconnected" listeners return normally. *)
Definition quiet_on_disconnect (s : State) : Prop :=
  forall wasClean,
    Forall (fun cb => cb_run cb (PCloseEvent wasClean) = Returns tt)
           (default [] (eventListeners s !! "disconnected")).

(** The manager is on socket [sid], made by [connect(serverUrl,
    authToken)] and not yet closed, with [n] reconnects counted, no other
    live socket and no reconnect scheduled. *)
Definition retrying (serverUrl authToken : string) (n : Z) (sid : nat) (s : State) : Prop :=
  (exists st, sockets s !! sid = Some (mkWebSocket serverUrl authToken st) /\ st <> CLOSED) /\
  only_live_socket sid s /\
  no_reconnect_pending s /\
  reconnectAttempts s = n /\
  accepts_url s (String.append serverUrl (String.append "?token=" authToken)) = true /\
  quiet_on_disconnect s.

(** The socket that the [k]-th failed attempt leaves the manager on. *)
Definition last_socket (k : nat) (sid next : nat) : nat :=
  match k with
  | O => sid
  | S k' => (next + k')%nat
  end.

(** [n+1], ..., [n+k] *)
Fixpoint counting (n : Z) (k : nat) : list Z :=
  match k with
  | O => []
  | S k' => (n + 1) :: counting (n + 1) k'
  end.

(** What [stopHeartbeat] leaves. *)
Definition heartbeat_stopped (s : State) : State :=
  match heartbeatInterval s with
  | Some tid =>
      set_heartbeatInterval None
        (set_trace (trace s ++ [ClearInterval tid]) (set_timers (delete tid (timers s)) s))
  | None => s
  end.

(** The state in which the "disconnected" listeners of socket [sid] are
    called: the socket is closed and the heartbeat stopped. *)
Definition closing (sid : nat) (s : State) : State :=
  heartbeat_stopped (set_readyState sid CLOSED s).

(** A manager that has just called [connect("wss://host", "secret")]. *)
Definition connecting : State :=
  exec (connect "wss://host" "secret") (initial (fun _ => true)).

(** A manager whose connection has dropped: the socket closed uncleanly and
    the first reconnect is scheduled. *)
Definition dropped : State := run [SocketClose 0%nat false] connecting.

(** What the specification asks of [destroy]: no timer is left. *)
Definition no_timer_left (s : State) : Prop := timers s = ∅.

(** ** Relations between the state before and after a method *)

(** A relation between states that a method may be shown to keep: it
    relates a state to itself, composes, and does not look at the record
    of effects. *)
Class Frame (R : State -> State -> Prop) : Prop := {
  frame_refl : forall s, R s s;
  frame_trans : forall s1 s2 s3, R s1 s2 -> R s2 s3 -> R s1 s3;
  frame_trace : forall s tr, R s (set_trace tr s)
}.

(** The method [c] keeps [R], however it ends. *)
Definition keeps {A : Type} (R : State -> State -> Prop) (c : M A) : Prop :=
  forall s, R s (snd (c s)).

(** The logs only grow: what was in [edits] and [messages] is still
    there, in place, followed by what was added. *)
Definition logs_extend (s s' : State) : Prop :=
  edits s `prefix_of` edits s' /\ messages s `prefix_of` messages s'.

(** Nothing of the connection has changed: the socket in use, the sockets
    and timers that exist, the retry counter and the heartbeat handle. *)
Definition same_connection (s s' : State) : Prop :=
  websocket s' = websocket s /\
  sockets s' = sockets s /\
  next_socket s' = next_socket s /\
  timers s' = timers s /\
  next_timer s' = next_timer s /\
  reconnectAttempts s' = reconnectAttempts s /\
  heartbeatInterval s' = heartbeatInterval s.

(** Nothing of the session has changed: the current user and room, the
    presence table, the logs and the listeners. *)
Definition same_session (s s' : State) : Prop :=
  currentUser s' = currentUser s /\
  currentRoom s' = currentRoom s /\
  users s' = users s /\
  messages s' = messages s /\
  edits s' = edits s /\
  eventListeners s' = eventListeners s.

(** The ids under which the listeners of a list were subscribed. *)
Definition listener_ids (listeners : list Callback) : list nat := map cb_id listeners.

(** The total length of the contents of the edits of a log. *)
Definition inserted_length (log : list CollaborationEdit) : Z :=
  fold_right (fun o n => content_length o + n) 0 log.

(** A manager on an open connection: [connect] was called and the socket
    has opened. *)
Definition connected : State := run [SocketOpen 0%nat] connecting.

(** The messages put on the socket so far, in order. *)
Definition messages_sent (tr : list Effect) : list ClientMessage :=
  omap (fun e => match e with Sent data => Some data | _ => None end) tr.

(** A manager on an open connection, with a current user, in room "r1". *)
Definition online_in_room : State :=
  exec (handleMessage (MRoomJoined room_r1)) (exec (setCurrentUser alice 0) connected).

(** The later-stamped edit [B] starts at or after the end of what the
    earlier-stamped [A] changes: at [A]'s position or beyond for an
    insert, past the removed range for a delete or a replace, and
    strictly after [A]'s position for a replace. *)
Definition later_is_after (A B : CollaborationEdit) : Prop :=
  edit_position A + extent A <= edit_position B /\
  (edit_type A = Replace -> edit_position A < edit_position B).

(** The later-stamped edit [B] lies wholly before the position of the
    earlier-stamped [A] and puts in as many characters as it removes. *)
Definition later_is_before_same_length (A B : CollaborationEdit) : Prop :=
  edit_position B + extent B <= edit_position A /\
  edit_position B < edit_position A /\
  Z.of_nat (length (payload B)) = extent B.

(** Two inserts on "ABCD": "X" at offset 3, stamped first, and "Y" at
    offset 1, stamped second. *)
Definition insertXat3 : CollaborationEdit := mkEdit "a" Insert 3 "X" None "u1" 1.
Definition insertYat1 : CollaborationEdit := mkEdit "b" Insert 1 "Y" None "u2" 2.

(** A delete of "BC" from "ABCD", stamped first, and an insert of "X" at
    offset 2, inside the deleted range, stamped second. *)
Definition deleteBC : CollaborationEdit := mkEdit "a" Delete 1 "" (Some 2) "u1" 1.
Definition insertXat2 : CollaborationEdit := mkEdit "b" Insert 2 "X" None "u2" 2.

(** A replace that removes nothing and puts "X" at offset 1, stamped
    first, and an insert of "Y" at the same offset, stamped second. *)
Definition replaceXat1 : CollaborationEdit := mkEdit "a" Replace 1 "X" (Some 0) "u1" 1.
Definition insertYat1second : CollaborationEdit := mkEdit "b" Insert 1 "Y" None "u2" 2.

(** An insert of "X" at offset 2, stamped first, and a delete of "BC",
    which starts before that offset and ends after it, stamped second. *)
Definition insertXat2first : CollaborationEdit := mkEdit "a" Insert 2 "X" None "u1" 1.
Definition deleteBCsecond : CollaborationEdit := mkEdit "b" Delete 1 "" (Some 2) "u2" 2.

(** A manager on an open connection with one "disconnected" listener,
    which throws. *)
Definition connected_with_failing_listener : State :=
  exec (on "disconnected" failing) connected.

(** What the specification asks after an unclean close: the five retries
    are scheduled, with their backoff delays. *)
Definition schedules_backoff (sid : nat) (now : Z) (s : State) : Prop :=
  timeouts_set (trace (run (failed_attempts 5 sid (next_socket s) (next_timer s) now) s))
    = timeouts_set (trace s) ++ [2000; 4000; 8000; 16000; 30000].

(** * Properties *)

Arguments emit : simpl never.
Arguments send : simpl never.
Arguments stopHeartbeat : simpl never.

(** ** [transformEdit] *)

Lemma transformEdit_timestamp (e o : CollaborationEdit) :
  edit_timestamp (transformEdit e o) = edit_timestamp e.
Proof.
  unfold transformEdit.
  destruct (edit_timestamp e <=? edit_timestamp o); [reflexivity|].
  destruct (edit_type o); cbn;
    match goal with |- context [if ?c then _ else _] => destruct c end; reflexivity.
Qed.

Lemma transformEdit_not_later (e o : CollaborationEdit) :
  edit_timestamp e <= edit_timestamp o -> transformEdit e o = e.
Proof.
  intros H. unfold transformEdit.
  destruct (Z.leb_spec (edit_timestamp e) (edit_timestamp o)); [reflexivity | lia].
Qed.

(** C9: an edit whose timestamp is not greater than the other's comes back
    from [transformEdit] unchanged; hence, of two edits with equal
    timestamps, neither is shifted against the other, whatever their
    positions and kinds. *)
Theorem transformEdit_earlier_or_equal_unchanged (E O : CollaborationEdit) :
  edit_timestamp E <= edit_timestamp O ->
  transformEdit E O = E /\
  (edit_timestamp E = edit_timestamp O -> transformEdit O E = O).
Proof.
  intros H. split.
  - apply transformEdit_not_later, H.
  - intros Heq. apply transformEdit_not_later. lia.
Qed.

Lemma transformEdit_earlier_or_equal_unchanged_witness :
  transformEdit (exampleA 10) (exampleB 10) = exampleA 10 /\
  transformEdit (exampleB 10) (exampleA 10) = exampleB 10.
Proof.
  destruct (transformEdit_earlier_or_equal_unchanged (exampleA 10) (exampleB 10))
    as [H1 H2].
  - cbn. lia.
  - split; [exact H1 | apply H2; reflexivity].
Defined.

(** C3, as stated, fails: the shift is not clamped. Against the earlier
    delete of 5 characters at offset 2, the edit at offset 3 lands on
    offset -2, below the delete's position. *)
Lemma transformEdit_delete_not_clamped :
  edit_type wideDelete = Delete /\
  edit_timestamp wideDelete < edit_timestamp lateEdit /\
  edit_position (transformEdit lateEdit wideDelete) = -2 /\
  edit_position (transformEdit lateEdit wideDelete) < edit_position wideDelete /\
  ~ clamped_delete_rule lateEdit wideDelete.
Proof.
  repeat split; try reflexivity.
  unfold clamped_delete_rule. vm_compute. discriminate.
Qed.

(** C3, amended: against a delete [O] at position [p] of length [L] with
    an earlier timestamp, an edit whose position is greater than [p] has
    its position moved by exactly [-L], with no clamping, and nothing else
    changed; an edit whose position is at most [p] is returned as it is. *)
Theorem transformEdit_against_delete (E O : CollaborationEdit) :
  edit_type O = Delete ->
  (edit_position E <= edit_position O -> transformEdit E O = E) /\
  (edit_timestamp O < edit_timestamp E ->
   edit_position O < edit_position E ->
   transformEdit E O =
     with_position E (edit_position E - length_or_0 (edit_length O))).
Proof.
  intros HO. unfold transformEdit. rewrite HO. split.
  - intros Hle.
    destruct (edit_timestamp E <=? edit_timestamp O); [reflexivity|].
    destruct (Z.gtb_spec (edit_position E) (edit_position O)); [lia | reflexivity].
  - intros Hts Hpos.
    destruct (Z.leb_spec (edit_timestamp E) (edit_timestamp O)); [lia|].
    destruct (Z.gtb_spec (edit_position E) (edit_position O)); [reflexivity | lia].
Qed.

Lemma transformEdit_against_delete_witness :
  transformEdit wideDelete wideDelete = wideDelete /\
  transformEdit lateEdit wideDelete = with_position lateEdit (3 - 5).
Proof.
  destruct (transformEdit_against_delete wideDelete wideDelete eq_refl) as [H1 _].
  destruct (transformEdit_against_delete lateEdit wideDelete eq_refl) as [_ H2].
  split.
  - apply H1. cbn. lia.
  - apply H2; cbn; lia.
Defined.

(** ** Convergence *)

Lemma splice_parts (l1 l2 l3 c : list ascii) :
  splice (l1 ++ l2 ++ l3) (length l1) (length l2) c = l1 ++ c ++ l3.
Proof.
  unfold splice. rewrite take_app_length.
  rewrite drop_app_add, drop_app_length. reflexivity.
Qed.

Lemma splice_parts' (t l1 l2 l3 c : list ascii) (p n : nat) :
  t = l1 ++ l2 ++ l3 -> p = length l1 -> n = length l2 ->
  splice t p n c = l1 ++ c ++ l3.
Proof. intros -> -> ->. apply splice_parts. Qed.

Lemma string_length_list (s : string) :
  String.length s = length (list_ascii_of_string s).
Proof. induction s as [|a s IH]; cbn; [reflexivity | by rewrite IH]. Qed.

Lemma length_splice (t c : list ascii) (p n : nat) :
  (p + n <= length t)%nat ->
  length (splice t p n c) = (length t - n + length c)%nat.
Proof.
  intros H. unfold splice. rewrite !length_app, length_take, length_drop. lia.
Qed.

Lemma applyEdit_valid (text : string) (e : CollaborationEdit) :
  0 <= edit_position e -> 0 <= extent e ->
  edit_position e + extent e <= Z.of_nat (length (list_ascii_of_string text)) ->
  applyEdit text e =
    Some (string_of_list_ascii
            (splice (list_ascii_of_string text) (Z.to_nat (edit_position e))
                    (Z.to_nat (extent e)) (payload e))).
Proof.
  intros H1 H2 H3. unfold applyEdit.
  destruct (Z.leb_spec 0 (edit_position e)); [|lia].
  destruct (Z.leb_spec 0 (extent e)); [|lia].
  destruct (Z.leb_spec (edit_position e + extent e)
              (Z.of_nat (length (list_ascii_of_string text)))); [|lia].
  reflexivity.
Qed.

Lemma applyEdit_invalid (text : string) (e : CollaborationEdit) :
  edit_position e < 0 \/ extent e < 0 \/
  Z.of_nat (length (list_ascii_of_string text)) < edit_position e + extent e ->
  applyEdit text e = None.
Proof.
  intros H. unfold applyEdit.
  destruct (Z.leb_spec 0 (edit_position e)); [|reflexivity].
  destruct (Z.leb_spec 0 (extent e)); [|reflexivity].
  destruct (Z.leb_spec (edit_position e + extent e)
              (Z.of_nat (length (list_ascii_of_string text)))); [lia|reflexivity].
Qed.

Lemma transformEdit_after_insert (E O : CollaborationEdit) :
  edit_timestamp O < edit_timestamp E -> edit_type O = Insert ->
  edit_position O <= edit_position E ->
  transformEdit E O = with_position E (edit_position E + content_length O).
Proof.
  intros Hts HO Hpos. unfold transformEdit. rewrite HO.
  destruct (Z.leb_spec (edit_timestamp E) (edit_timestamp O)); [lia|].
  destruct (Z.geb_spec (edit_position E) (edit_position O)); [reflexivity|lia].
Qed.

Lemma split5 (t : list ascii) (a n b m : nat) :
  (a + n <= b)%nat -> (b + m <= length t)%nat ->
  exists l1 l2 l3 l4 l5, t = l1 ++ l2 ++ l3 ++ l4 ++ l5 /\
    length l1 = a /\ length l2 = n /\ length l3 = (b - (a + n))%nat /\ length l4 = m.
Proof.
  intros Hab Hbm.
  exists (take a t), (take n (drop a t)), (take (b - (a + n)) (drop (a + n) t)),
         (take m (drop b t)), (drop (b + m) t).
  repeat split.
  - rewrite <- (take_drop a t) at 1. f_equal.
    rewrite <- (take_drop n (drop a t)) at 1. f_equal.
    rewrite drop_drop.
    rewrite <- (take_drop (b - (a + n)) (drop (a + n) t)) at 1. f_equal.
    rewrite drop_drop. replace (a + n + (b - (a + n)))%nat with b by lia.
    rewrite <- (take_drop m (drop b t)) at 1. f_equal.
    rewrite drop_drop. reflexivity.
  - rewrite length_take. lia.
  - rewrite length_take, length_drop. lia.
  - rewrite length_take, length_drop. lia.
  - rewrite length_take, length_drop. lia.
Qed.

(** Two changes to ranges that do not overlap can be made in either
    order, once the offset of the second is moved by what the first adds
    and removes. *)
Lemma splice_apart (t c d : list ascii) (a n b m : nat) :
  (a + n <= b)%nat -> (b + m <= length t)%nat ->
  splice (splice t a n c) (b - n + length c) m d = splice (splice t b m d) a n c.
Proof.
  intros Hab Hbm.
  destruct (split5 t a n b m Hab Hbm)
    as (l1 & l2 & l3 & l4 & l5 & -> & H1 & H2 & H3 & H4).
  rewrite (splice_parts' _ l1 l2 (l3 ++ l4 ++ l5) c a n) by done.
  rewrite (splice_parts' _ (l1 ++ l2 ++ l3) l4 l5 d b m);
    [|by rewrite <- !app_assoc|rewrite !length_app; lia|done].
  rewrite (splice_parts' _ (l1 ++ c ++ l3) l4 l5 d);
    [|by rewrite <- !app_assoc|rewrite !length_app; lia|done].
  rewrite (splice_parts' _ l1 l2 (l3 ++ d ++ l5) c a n);
    [|by rewrite <- !app_assoc|done|done].
  by rewrite <- !app_assoc.
Qed.

(** The equation of [splice_apart] for edits: [X] changes a range that
    ends at or before the position of [Y], and [Y] is moved by what [X]
    adds and removes. Either both orders are rejected or both give the
    same text. *)
Lemma applyTwo_apart (text : string) (X Y : CollaborationEdit) (q : Z) :
  edit_position X + extent X <= edit_position Y ->
  q = edit_position Y + Z.of_nat (length (payload X)) - extent X ->
  applyTwo text X (with_position Y q) = applyTwo text Y X.
Proof.
  intros Hapart Hq. unfold applyTwo.
  set (Y' := with_position Y q).
  set (t := list_ascii_of_string text).
  assert (HeY' : extent Y' = extent Y) by reflexivity.
  assert (HpY' : payload Y' = payload Y) by reflexivity.
  assert (HposY' : edit_position Y' = q) by reflexivity.
  destruct (Z.le_gt_cases 0 (edit_position X)) as [H0|H0].
  2:{ rewrite (applyEdit_invalid text X) by lia.
      destruct (applyEdit text Y) as [t2|]; [|reflexivity].
      rewrite applyEdit_invalid; [reflexivity | lia]. }
  destruct (Z.le_gt_cases 0 (extent X)) as [HnX|HnX].
  2:{ rewrite (applyEdit_invalid text X) by lia.
      destruct (applyEdit text Y) as [t2|]; [|reflexivity].
      rewrite applyEdit_invalid; [reflexivity | lia]. }
  destruct (Z.le_gt_cases 0 (extent Y)) as [HnY|HnY].
  2:{ rewrite (applyEdit_invalid text Y) by lia.
      destruct (applyEdit text X) as [t1|]; [|reflexivity].
      rewrite applyEdit_invalid; [reflexivity | lia]. }
  destruct (Z.le_gt_cases (edit_position Y + extent Y) (Z.of_nat (length t))) as [Hlen|Hlen].
  2:{ rewrite (applyEdit_invalid text Y) by (fold t; lia).
      destruct (Z.le_gt_cases (edit_position X + extent X) (Z.of_nat (length t)))
        as [HX|HX].
      - rewrite (applyEdit_valid text X) by (fold t; lia).
        rewrite applyEdit_invalid; [reflexivity|].
        rewrite list_ascii_of_string_of_list_ascii.
        rewrite length_splice by (fold t; lia). fold t. lia.
      - rewrite (applyEdit_invalid text X) by (fold t; lia). reflexivity. }
  rewrite (applyEdit_valid text X) by (fold t; lia).
  rewrite (applyEdit_valid text Y) by (fold t; lia).
  fold t.
  rewrite applyEdit_valid; rewrite ?list_ascii_of_string_of_list_ascii, ?length_splice; try lia.
  rewrite applyEdit_valid; rewrite ?list_ascii_of_string_of_list_ascii, ?length_splice; try lia.
  rewrite HeY', HpY', HposY'. f_equal. f_equal. subst q.
  replace (Z.to_nat (edit_position Y + Z.of_nat (length (payload X)) - extent X))
    with (Z.to_nat (edit_position Y) - Z.to_nat (extent X) + length (payload X))%nat by lia.
  apply splice_apart; lia.
Qed.

Lemma with_position_unchanged (e : CollaborationEdit) (p : Z) :
  p = edit_position e -> with_position e p = e.
Proof. intros ->. by destruct e. Qed.

(** What [transformEdit] does to a later-stamped edit that starts at or
    after the end of the earlier one's change. *)
Lemma transformEdit_later_is_after (A B : CollaborationEdit) :
  edit_timestamp A < edit_timestamp B ->
  0 <= extent A ->
  later_is_after A B ->
  transformEdit B A =
    with_position B (edit_position B + Z.of_nat (length (payload A)) - extent A).
Proof.
  intros Hts Hn [Hpos Hrep]. unfold transformEdit, extent, payload, content_length in *.
  destruct (Z.leb_spec (edit_timestamp B) (edit_timestamp A)); [lia|].
  destruct (edit_type A).
  - rewrite <- string_length_list.
    destruct (Z.geb_spec (edit_position B) (edit_position A)); [|lia].
    f_equal. lia.
  - destruct (Z.gtb_spec (edit_position B) (edit_position A)).
    + f_equal. cbn. lia.
    + symmetry. apply with_position_unchanged. cbn. lia.
  - rewrite <- string_length_list.
    destruct (Z.gtb_spec (edit_position B) (edit_position A)); [|specialize (Hrep eq_refl); lia].
    cbn zeta. f_equal. lia.
Qed.

Lemma transformEdit_later_is_before (A B : CollaborationEdit) :
  edit_position B < edit_position A -> transformEdit B A = B.
Proof.
  intros Hpos. unfold transformEdit.
  destruct (edit_timestamp B <=? edit_timestamp A); [reflexivity|].
  destruct (edit_type A).
  - by destruct (Z.geb_spec (edit_position B) (edit_position A)); [lia|].
  - by destruct (Z.gtb_spec (edit_position B) (edit_position A)); [lia|].
  - by destruct (Z.gtb_spec (edit_position B) (edit_position A)); [lia|].
Qed.

Lemma converges_sym (text : string) (A B : CollaborationEdit) :
  converges text A B -> converges text B A.
Proof. unfold converges. intros H. by symmetry. Qed.

Lemma convergence_apart (text : string) (A B : CollaborationEdit) :
  (edit_timestamp A < edit_timestamp B /\ later_is_after A B) \/
  (edit_timestamp A <= edit_timestamp B /\ later_is_before_same_length A B) ->
  converges text A B.
Proof.
  intros Hcase. unfold converges.
  rewrite (transformEdit_not_later A B) by (destruct Hcase as [[? _]|[? _]]; lia).
  destruct Hcase as [[Hts Hafter]|[Hts (Hbefore & Hlt & Hsame)]].
  - destruct (Z.le_gt_cases 0 (extent A)) as [Hn|Hn].
    + rewrite (transformEdit_later_is_after A B Hts Hn Hafter).
      apply applyTwo_apart; [apply Hafter | reflexivity].
    + unfold applyTwo. rewrite (applyEdit_invalid text A) by lia.
      destruct (applyEdit text B) as [t2|]; [|reflexivity].
      rewrite applyEdit_invalid; [reflexivity | lia].
  - rewrite (transformEdit_later_is_before A B Hlt).
    rewrite <- (with_position_unchanged A (edit_position A)) at 2 by reflexivity.
    symmetry. apply applyTwo_apart; [exact Hbefore | lia].
Qed.

(** C1, as stated, fails. In the example of the specification with equal
    timestamps neither edit is transformed, and the two orders give "AXCD"
    and "AXBD"; so they do when B is stamped before A. With the timestamps
    in order it still fails when the later edit lies before the earlier
    one and changes the length ("AYBCXD" and "AYBXCD"), when it falls
    inside the range the earlier one deletes ("XAD" and "ACD"), when it
    sits at the position of an earlier replace ("AYXBCD" and "AXYBCD"),
    and when it starts before the earlier one and reaches past it ("ACD"
    and "ADX"). *)
Lemma convergence_fails_unless_ordered_and_apart :
  (applyTwo "ABCD" (exampleA 10) (transformEdit (exampleB 10) (exampleA 10)) = Some "AXCD" /\
   applyTwo "ABCD" (exampleB 10) (transformEdit (exampleA 10) (exampleB 10)) = Some "AXBD" /\
   ~ converges "ABCD" (exampleA 10) (exampleB 10)) /\
  (applyTwo "ABCD" (exampleA 20) (transformEdit (exampleB 10) (exampleA 20)) = Some "AXCD" /\
   applyTwo "ABCD" (exampleB 10) (transformEdit (exampleA 20) (exampleB 10)) = Some "AXBD" /\
   ~ converges "ABCD" (exampleA 20) (exampleB 10)) /\
  (edit_timestamp insertXat3 < edit_timestamp insertYat1 /\
   applyTwo "ABCD" insertXat3 (transformEdit insertYat1 insertXat3) = Some "AYBCXD" /\
   applyTwo "ABCD" insertYat1 (transformEdit insertXat3 insertYat1) = Some "AYBXCD" /\
   ~ converges "ABCD" insertXat3 insertYat1) /\
  (edit_timestamp deleteBC < edit_timestamp insertXat2 /\
   applyTwo "ABCD" deleteBC (transformEdit insertXat2 deleteBC) = Some "XAD" /\
   applyTwo "ABCD" insertXat2 (transformEdit deleteBC insertXat2) = Some "ACD" /\
   ~ converges "ABCD" deleteBC insertXat2) /\
  (edit_timestamp replaceXat1 < edit_timestamp insertYat1second /\
   applyTwo "ABCD" replaceXat1 (transformEdit insertYat1second replaceXat1) = Some "AYXBCD" /\
   applyTwo "ABCD" insertYat1second (transformEdit replaceXat1 insertYat1second) = Some "AXYBCD" /\
   ~ converges "ABCD" replaceXat1 insertYat1second) /\
  (edit_timestamp insertXat2first < edit_timestamp deleteBCsecond /\
   applyTwo "ABCD" insertXat2first (transformEdit deleteBCsecond insertXat2first)
     = Some "ACD" /\
   applyTwo "ABCD" deleteBCsecond (transformEdit insertXat2first deleteBCsecond)
     = Some "ADX" /\
   ~ converges "ABCD" insertXat2first deleteBCsecond).
Proof.
  repeat split; try reflexivity; unfold converges; vm_compute; discriminate.
Qed.

(** C1, amended: for any two edits A and B, applying A and then
    [transformEdit(B, A)] gives the same text as applying B and then
    [transformEdit(A, B)] (with the edits named in either order) when the
    two do not overlap in one of two ways. Either A has the strictly
    smaller timestamp and B starts at or after the end of A's change (at
    A's position or beyond for an insert, past the removed range for a
    delete or replace, strictly after A's position for a replace); or A's
    timestamp is not greater than B's, B lies wholly before A's position
    and B puts in as many characters as it removes. In particular, from
    "ABCD" with A = insert("X", pos=1) and B = delete(pos=2, len=1), and A
    stamped before B, both orders give "AXBD". *)
Theorem convergence_for_ordered_edits_apart :
  (forall text A B,
     (edit_timestamp A < edit_timestamp B /\ later_is_after A B) \/
     (edit_timestamp A <= edit_timestamp B /\ later_is_before_same_length A B) ->
     converges text A B /\ converges text B A) /\
  (forall tsA tsB,
     tsA < tsB ->
     applyTwo "ABCD" (exampleA tsA) (transformEdit (exampleB tsB) (exampleA tsA))
       = Some "AXBD" /\
     applyTwo "ABCD" (exampleB tsB) (transformEdit (exampleA tsA) (exampleB tsB))
       = Some "AXBD").
Proof.
  split.
  - intros text A B Hcase.
    pose proof (convergence_apart text A B Hcase) as H.
    split; [exact H | by apply converges_sym].
  - intros tsA tsB Hts.
    rewrite (transformEdit_after_insert (exampleB tsB) (exampleA tsA))
      by (cbn; lia || reflexivity).
    rewrite (transformEdit_not_later (exampleA tsA) (exampleB tsB)) by (cbn; lia).
    split; reflexivity.
Qed.

Lemma convergence_for_ordered_edits_apart_witness :
  (converges "ABCD" (exampleA 10) (exampleB 20) /\
   converges "ABCD" (exampleB 20) (exampleA 10)) /\
  (converges "ABCD" (mkEdit "a" Delete 0 "" (Some 1) "u1" 1) insertXat2 /\
   converges "ABCD" insertXat2 (mkEdit "a" Delete 0 "" (Some 1) "u1" 1)) /\
  (converges "ABCD" (mkEdit "a" Replace 0 "xyz" (Some 1) "u1" 1) insertXat2 /\
   converges "ABCD" insertXat2 (mkEdit "a" Replace 0 "xyz" (Some 1) "u1" 1)) /\
  (converges "ABCD" (exampleA 10) (mkEdit "b" Replace 0 "x" (Some 1) "u2" 10) /\
   converges "ABCD" (mkEdit "b" Replace 0 "x" (Some 1) "u2" 10) (exampleA 10)) /\
  applyTwo "ABCD" (exampleA 10) (transformEdit (exampleB 20) (exampleA 10)) = Some "AXBD" /\
  applyTwo "ABCD" (exampleB 20) (transformEdit (exampleA 10) (exampleB 20)) = Some "AXBD".
Proof.
  destruct convergence_for_ordered_edits_apart as [H1 H2].
  split; [|split; [|split; [|split]]].
  - apply H1. left. split; [cbn; lia|]. split; [cbn; lia | discriminate].
  - apply H1. left. split; [cbn; lia|]. split; [cbn; lia | discriminate].
  - apply H1. left. split; [cbn; lia|]. split; [cbn; lia | intros _; cbn; lia].
  - apply H1. right. split; [cbn; lia|]. split; [cbn; lia|]. split; [cbn; lia | reflexivity].
  - apply H2. lia.
Defined.

(** ** The event system *)

Lemma set_trace_same (s : State) : set_trace (trace s) s = s.
Proof. by destruct s. Qed.

Lemma forEach_call_spec (listeners : list Callback) (data : Payload) (s : State) :
  forEach_call listeners data s =
    (forEach_outcome listeners data,
     set_trace (trace s ++ map (called data) (invoked listeners data)) s).
Proof.
  revert s. induction listeners as [|cb rest IH]; intros s; cbn.
  - unfold ret. by rewrite app_nil_r, set_trace_same.
  - unfold bind, effect, modify. cbn.
    destruct (cb_run cb data) as [[]|err]; cbn.
    + rewrite IH. cbn. by rewrite <- app_assoc.
    + reflexivity.
Qed.

Lemma emit_spec (event : string) (data : Payload) (s : State) :
  emit event data s =
    match eventListeners s !! event with
    | Some listeners =>
        (forEach_outcome listeners data,
         set_trace (trace s ++ map (called data) (invoked listeners data)) s)
    | None => (Returns tt, s)
    end.
Proof.
  unfold emit, bind, gets.
  destruct (eventListeners s !! event); [apply forEach_call_spec | reflexivity].
Qed.

Lemma calls_made_app (tr tr' : list Effect) :
  calls_made (tr ++ tr') = calls_made tr ++ calls_made tr'.
Proof. unfold calls_made. apply omap_app. Qed.

Lemma calls_made_called (data : Payload) (l : list Callback) :
  calls_made (map (called data) l) = map (call_of data) l.
Proof. induction l as [|cb l IH]; cbn; [reflexivity | by rewrite <- IH]. Qed.

Lemma invoked_all (listeners : list Callback) (data : Payload) :
  Forall (fun cb => cb_run cb data = Returns tt) listeners ->
  invoked listeners data = listeners /\ forEach_outcome listeners data = Returns tt.
Proof.
  induction 1 as [|cb rest Hcb _ [IH1 IH2]]; cbn; [done|].
  rewrite Hcb. by rewrite IH1, IH2.
Qed.

Lemma invoked_until (l1 l2 : list Callback) (cb : Callback) (err : string) (data : Payload) :
  Forall (fun cb => cb_run cb data = Returns tt) l1 ->
  cb_run cb data = Throws err ->
  invoked (l1 ++ cb :: l2) data = l1 ++ [cb] /\
  forEach_outcome (l1 ++ cb :: l2) data = Throws err.
Proof.
  intros H Hcb. induction H as [|c rest Hc _ [IH1 IH2]]; cbn.
  - by rewrite Hcb.
  - rewrite Hc. by rewrite IH1, IH2.
Qed.

Lemma on_appends (event : string) (cb : Callback) (s : State) :
  eventListeners (exec (on event cb) s) !! event =
    Some (default [] (eventListeners s !! event) ++ [cb]).
Proof. cbn. apply lookup_insert_eq. Qed.

(** C5, as stated, fails: with a throwing listener subscribed before a
    second one, publishing raises to the caller and the second listener is
    never called. *)
Lemma emit_not_isolated :
  eventListeners two_listeners !! "edit" = Some [failing; quiet] /\
  fst (emit "edit" PUndefined two_listeners) = Throws "boom" /\
  calls_made (trace (exec (emit "edit" PUndefined) two_listeners)) = [(1%nat, PUndefined)] /\
  ~ isolated "edit" PUndefined two_listeners.
Proof.
  split; [by vm_compute|]. split; [by vm_compute|]. split; [by vm_compute|].
  intros H. destruct (H [failing; quiet]) as [H1 _]; [by vm_compute|].
  vm_compute in H1. discriminate.
Qed.

(** C5, amended: a new subscriber goes to the end of the event's listener
    list, and publishing calls the listeners in that order up to and
    including the first one that throws; its exception ends the publish
    and reaches the caller, and the listeners after it are not called.
    When no listener throws, all are called and publish returns. *)
Theorem emit_stops_at_first_throw (event : string) (data : Payload) (s : State)
    (listeners : list Callback) :
  eventListeners s !! event = Some listeners ->
  (forall cb, eventListeners (exec (on event cb) s) !! event = Some (listeners ++ [cb])) /\
  (Forall (fun cb => cb_run cb data = Returns tt) listeners ->
     fst (emit event data s) = Returns tt /\
     calls_made (trace (exec (emit event data) s)) =
       calls_made (trace s) ++ map (call_of data) listeners) /\
  (forall l1 cb l2 err,
     listeners = l1 ++ cb :: l2 ->
     Forall (fun cb => cb_run cb data = Returns tt) l1 ->
     cb_run cb data = Throws err ->
     fst (emit event data s) = Throws err /\
     calls_made (trace (exec (emit event data) s)) =
       calls_made (trace s) ++ map (call_of data) (l1 ++ [cb])).
Proof.
  intros Hl. split.
  { intros cb. by rewrite on_appends, Hl. }
  unfold exec. rewrite emit_spec, Hl. cbn. split.
  - intros Hall. destruct (invoked_all _ _ Hall) as [-> ->].
    by rewrite calls_made_app, calls_made_called.
  - intros l1 cb l2 err -> Hall Hcb.
    destruct (invoked_until l1 l2 cb err data Hall Hcb) as [-> ->].
    by rewrite calls_made_app, calls_made_called.
Qed.

Lemma emit_stops_at_first_throw_witness :
  fst (emit "edit" PUndefined two_listeners) = Throws "boom" /\
  calls_made (trace (exec (emit "edit" PUndefined) two_listeners)) =
    calls_made (trace two_listeners) ++ map (call_of PUndefined) ([] ++ [failing]).
Proof.
  assert (Hl : eventListeners two_listeners !! "edit" = Some [failing; quiet])
    by (by vm_compute).
  destruct (emit_stops_at_first_throw "edit" PUndefined two_listeners _ Hl) as (_ & _ & H).
  apply (H [] failing [quiet] "boom"); [reflexivity | constructor | reflexivity].
Defined.


(** ** Incoming and outgoing edits *)

Lemma send_state (data : ClientMessage) (s : State) :
  exists tr, send data s = (Returns tt, set_trace tr s).
Proof.
  unfold send, bind, gets. cbn. destruct (socket_is_open s); cbn; eauto.
  exists (trace s). unfold ret. by rewrite set_trace_same.
Qed.

Lemma transform_incoming_earlier (log : list CollaborationEdit) (e : CollaborationEdit) :
  transform_incoming log e = fold_left transformEdit (earlier_than e log) e.
Proof.
  unfold transform_incoming, earlier_than.
  assert (H : forall acc, edit_timestamp acc = edit_timestamp e ->
            fold_left transformEdit log acc =
            fold_left transformEdit
              (List.filter (fun o => edit_timestamp o <? edit_timestamp e) log) acc).
  { induction log as [|o log IH]; intros acc Hacc; cbn; [reflexivity|].
    destruct (Z.ltb_spec (edit_timestamp o) (edit_timestamp e)); cbn.
    - apply IH. by rewrite transformEdit_timestamp.
    - rewrite transformEdit_not_later by lia. by apply IH. }
  by apply H.
Qed.

Lemma handleMessage_edit_log (e : CollaborationEdit) (s : State) :
  edits (exec (handleMessage (MEdit e)) s) = edits s ++ [transform_incoming (edits s) e].
Proof.
  unfold exec. cbn. unfold bind, gets, modify. cbn.
  rewrite emit_spec. cbn.
  destruct (eventListeners s !! "edit"); reflexivity.
Qed.

(** C2, amended: an incoming edit is folded through [transformEdit]
    against the whole log, which transforms it against exactly the log
    entries whose timestamp is strictly smaller than its own, whether or
    not its author had observed them; the result is appended to the log. *)
Theorem handleMessage_edit_transforms_against_earlier (e : CollaborationEdit) (s : State) :
  transform_incoming (edits s) e = fold_left transformEdit (earlier_than e (edits s)) e /\
  edits (exec (handleMessage (MEdit e)) s) =
    edits s ++ [fold_left transformEdit (earlier_than e (edits s)) e].
Proof.
  split; [apply transform_incoming_earlier|].
  by rewrite handleMessage_edit_log, transform_incoming_earlier.
Qed.

(** C2, as stated, fails: "u1" typed "X" at offset 0 and then, having
    seen it, "Y" at offset 1; a replica that holds the first edit
    transforms the second against it and stores it at offset 2. *)
Lemma handleMessage_edit_retransforms_observed :
  let s := exec (handleMessage (MEdit typedX)) (initial (fun _ => true)) in
  edits s = [typedX] /\
  own_edit (edit_userId typedY) typedX = true /\
  transform_unobserved (own_edit (edit_userId typedY)) (edits s) typedY = typedY /\
  edits (exec (handleMessage (MEdit typedY)) s) = [typedX; with_position typedY 2] /\
  edits (exec (handleMessage (MEdit typedY)) s) <>
    edits s ++ [transform_unobserved (own_edit (edit_userId typedY)) (edits s) typedY].
Proof. vm_compute. repeat split; discriminate. Qed.

Lemma sendEdit_appends (d : EditDraft) (newId : string) (now : Z) (s : State)
    (u : CollaborationUser) (r : CollaborationRoom) :
  currentUser s = Some u -> currentRoom s = Some r ->
  edits (exec (sendEdit d newId now) s) = edits s ++ [fullEdit d newId (user_id u) now] /\
  fst (sendEdit d newId now s) =
    match eventListeners s !! "edit" with
    | Some listeners => forEach_outcome listeners (PEdit (fullEdit d newId (user_id u) now))
    | None => Returns tt
    end.
Proof.
  intros Hu Hr. unfold exec, sendEdit, bind, gets, modify. cbn. rewrite Hu, Hr.
  set (full := fullEdit d newId (user_id u) now).
  destruct (send_state (OEdit full) (set_edits (edits s ++ [full]) s)) as [tr ->].
  rewrite emit_spec. cbn.
  destruct (eventListeners s !! "edit"); cbn; done.
Qed.

Lemma sendEdit_without_session (d : EditDraft) (newId : string) (now : Z) (s : State) :
  currentUser s = None \/ currentRoom s = None ->
  sendEdit d newId now s = (Returns tt, s).
Proof.
  intros H. unfold sendEdit, bind, gets. cbn.
  destruct (currentUser s), (currentRoom s); try reflexivity.
  destruct H; discriminate.
Qed.

(** C4, as stated, fails: in a session with a current user and room, a
    draft at position -1 is appended, the call returns normally and the
    log grows from 0 to 1 entries; so is a delete of 99 characters on an
    empty text. *)
Lemma sendEdit_negative_position_appended :
  malformed 0 negativeDraft = true /\
  fst (sendEdit negativeDraft "id1" 7 in_room) = Returns tt /\
  length (edits in_room) = 0%nat /\
  length (edits (exec (sendEdit negativeDraft "id1" 7) in_room)) = 1%nat /\
  ~ rejected negativeDraft "id1" 7 in_room /\
  malformed 0 longDelete = true /\
  length (edits (exec (sendEdit longDelete "id2" 8) in_room)) = 1%nat /\
  ~ rejected longDelete "id2" 8 in_room.
Proof.
  repeat split; try by vm_compute.
  - intros [H _]. vm_compute in H. discriminate.
  - intros [H _]. vm_compute in H. discriminate.
Qed.

(** C4, amended: [sendEdit] validates nothing. With a current user and a
    current room, any draft, also one with a negative position or a
    delete longer than the text, is stamped and appended, so the log grows
    by exactly one, and the call ends as the "edit" listeners end; without
    a current user or room the call returns and changes nothing. *)
Theorem sendEdit_appends_unvalidated (d : EditDraft) (newId : string) (now : Z) (s : State) :
  (forall u r,
     currentUser s = Some u -> currentRoom s = Some r ->
     edits (exec (sendEdit d newId now) s) = edits s ++ [fullEdit d newId (user_id u) now] /\
     length (edits (exec (sendEdit d newId now) s)) = S (length (edits s)) /\
     fst (sendEdit d newId now s) =
       match eventListeners s !! "edit" with
       | Some listeners =>
           forEach_outcome listeners (PEdit (fullEdit d newId (user_id u) now))
       | None => Returns tt
       end) /\
  (currentUser s = None \/ currentRoom s = None ->
   sendEdit d newId now s = (Returns tt, s)).
Proof.
  split.
  - intros u r Hu Hr. destruct (sendEdit_appends d newId now s u r Hu Hr) as [H1 H2].
    split; [exact H1|]. split; [|exact H2].
    rewrite H1, length_app. cbn. lia.
  - apply sendEdit_without_session.
Qed.

Lemma sendEdit_appends_unvalidated_witness :
  edits (exec (sendEdit negativeDraft "id1" 7) in_room) =
    edits in_room ++ [fullEdit negativeDraft "id1" (user_id alice) 7] /\
  sendEdit negativeDraft "id1" 7 (initial (fun _ => true)) =
    (Returns tt, initial (fun _ => true)).
Proof.
  split.
  - destruct (sendEdit_appends_unvalidated negativeDraft "id1" 7 in_room) as [H _].
    apply (H alice room_r1); reflexivity.
  - destruct (sendEdit_appends_unvalidated negativeDraft "id1" 7 (initial (fun _ => true)))
      as [_ H].
    apply H. left. reflexivity.
Defined.

(** C10: a [cursor_update] or [selection_update] for a user id that is
    not in the presence table does nothing at all: the state, with its
    record of listener calls and of messages sent, is the one before, so
    no user is created or changed and no event is published. *)
Theorem presence_update_for_unknown_user (userId : string) (c : Cursor) (sel : Selection)
    (s : State) :
  users s !! userId = None ->
  handleMessage (MCursorUpdate userId c) s = (Returns tt, s) /\
  handleMessage (MSelectionUpdate userId sel) s = (Returns tt, s).
Proof.
  intros H. cbn. unfold bind, gets. cbn. by rewrite H.
Qed.

Lemma presence_update_for_unknown_user_witness :
  handleMessage (MCursorUpdate "ghost" (mkCursor 1 2)) in_room = (Returns tt, in_room) /\
  handleMessage (MSelectionUpdate "ghost" (mkSelection 0 3)) in_room = (Returns tt, in_room).
Proof.
  apply (presence_update_for_unknown_user "ghost" (mkCursor 1 2) (mkSelection 0 3) in_room).
  by vm_compute.
Defined.

(** ** Joining a room *)

Lemma seed_users_other (members : list CollaborationUser)
    (table : gmap string CollaborationUser) (k : string) :
  ~ In k (map user_id members) -> seed_users members table !! k = table !! k.
Proof.
  unfold seed_users. revert table.
  induction members as [|u members IH]; intros table Hk; cbn in *; [reflexivity|].
  rewrite IH by tauto. apply lookup_insert_ne. tauto.
Qed.

Lemma seed_users_member (members : list CollaborationUser)
    (table : gmap string CollaborationUser) (u : CollaborationUser) :
  NoDup (map user_id members) -> In u members ->
  seed_users members table !! user_id u = Some u.
Proof.
  unfold seed_users. revert table.
  induction members as [|v members IH]; intros table Hnd Hin; cbn in *; [tauto|].
  apply NoDup_cons in Hnd as [Hv Hnd].
  destruct Hin as [->|Hin].
  - fold (seed_users members (<[user_id u:=u]> table)).
    rewrite seed_users_other; [apply lookup_insert_eq|].
    by rewrite <- list_elem_of_In.
  - by apply IH.
Qed.

Lemma seed_users_dom (members : list CollaborationUser)
    (table : gmap string CollaborationUser) :
  dom (seed_users members table) = list_to_set (map user_id members) ∪ dom table.
Proof.
  unfold seed_users. revert table.
  induction members as [|v members IH]; intros table; cbn.
  - by rewrite (left_id_L ∅ (∪)).
  - rewrite IH, dom_insert_L.
    rewrite (assoc_L (∪)). f_equal. apply (comm_L (∪)).
Qed.

Lemma seed_users_size (members : list CollaborationUser)
    (table : gmap string CollaborationUser) :
  NoDup (map user_id members) ->
  (forall k, is_Some (table !! k) -> In k (map user_id members)) ->
  size (seed_users members table) = length members.
Proof.
  intros Hnd Hsub.
  rewrite <- size_dom, seed_users_dom.
  assert (Hd : dom table ⊆ list_to_set (C := gset string) (map user_id members)).
  { intros k Hk. apply elem_of_dom in Hk. apply elem_of_list_to_set.
    apply list_elem_of_In. by apply Hsub. }
  rewrite (comm_L (∪)), (subseteq_union_1_L _ _ Hd).
  rewrite size_list_to_set by done. apply length_map.
Qed.

Lemma joinRoom_state (roomId : string) (s : State) :
  exists tr, exec (joinRoom roomId) s = set_trace tr s.
Proof.
  unfold exec, joinRoom, bind, gets. cbn.
  destruct (currentUser s) as [u|]; cbn.
  - destruct (send_state (ORoomJoin roomId (user_id u)) s) as [tr ->]. cbn. eauto.
  - exists (trace s). by rewrite set_trace_same.
Qed.

Lemma handleMessage_room_joined (room : CollaborationRoom) (s : State) :
  currentRoom (exec (handleMessage (MRoomJoined room)) s) = Some room /\
  users (exec (handleMessage (MRoomJoined room)) s) = seed_users (room_users room) (users s).
Proof.
  unfold exec. cbn. unfold bind, modify. cbn. rewrite emit_spec. cbn.
  destruct (eventListeners s !! "room_joined"); cbn; done.
Qed.

(** C7, amended: after [joinRoom("r1")] and a [room_joined] message, the
    current room is the message's room, with its member list, and the
    members are written over the presence table, whose entries under other
    ids stay. When the members have distinct ids and the table held no
    user outside them before (it was empty, say), the table afterwards
    holds exactly the members: 3 users for 3 members. *)
Theorem room_joined_seeds_presence (roomId : string) (room : CollaborationRoom) (s : State) :
  let s' := exec (handleMessage (MRoomJoined room)) (exec (joinRoom roomId) s) in
  currentRoom s' = Some room /\
  (forall k, ~ In k (map user_id (room_users room)) -> users s' !! k = users s !! k) /\
  (NoDup (map user_id (room_users room)) ->
   (forall k, is_Some (users s !! k) -> In k (map user_id (room_users room))) ->
   exactly_members (room_users room) (users s')).
Proof.
  intros s'. subst s'.
  destruct (joinRoom_state roomId s) as [tr ->].
  destruct (handleMessage_room_joined room (set_trace tr s)) as [-> ->]. cbn.
  split; [reflexivity|]. split.
  - intros k Hk. by apply seed_users_other.
  - intros Hnd Hsub. split.
    + by apply seed_users_size.
    + intros u Hu. by apply seed_users_member.
Qed.

(** C7, as stated, fails: a table that already holds "u9" holds four
    users after the 3 members of "r1" are seeded. *)
Lemma room_joined_keeps_earlier_users :
  let s' := exec (handleMessage (MRoomJoined room_r1)) (exec (joinRoom "r1") knows_dave) in
  length (room_users room_r1) = 3%nat /\
  size (users s') = 4%nat /\
  users s' !! "u9" = Some dave /\
  ~ exactly_members (room_users room_r1) (users s').
Proof.
  cbn zeta. repeat split; try by vm_compute.
  intros [H _]. vm_compute in H. discriminate.
Qed.

Lemma room_joined_seeds_presence_witness :
  exactly_members [alice; bob; carol]
    (users (exec (handleMessage (MRoomJoined room_r1))
                 (exec (joinRoom "r1") (initial (fun _ => true))))).
Proof.
  apply (room_joined_seeds_presence "r1" room_r1 (initial (fun _ => true))).
  - cbn. repeat constructor; rewrite ?list_elem_of_In; cbn; intuition discriminate.
  - intros k [u Hu]. cbn in Hu. by rewrite lookup_empty in Hu.
Defined.

(** ** Reconnection *)

Lemma timeouts_set_app (tr tr' : list Effect) :
  timeouts_set (tr ++ tr') = timeouts_set tr ++ timeouts_set tr'.
Proof. apply omap_app. Qed.

Lemma timeouts_set_called (data : Payload) (l : list Callback) :
  timeouts_set (map (called data) l) = [].
Proof. induction l; cbn; done. Qed.

Lemma stopHeartbeat_spec (s : State) :
  stopHeartbeat s = (Returns tt, heartbeat_stopped s).
Proof.
  unfold stopHeartbeat, heartbeat_stopped, bind, gets. cbn.
  destruct (heartbeatInterval s); reflexivity.
Qed.

Lemma heartbeat_stopped_timers (s : State) :
  timers (heartbeat_stopped s) =
    match heartbeatInterval s with
    | Some tid => delete tid (timers s)
    | None => timers s
    end.
Proof. unfold heartbeat_stopped. by destruct (heartbeatInterval s). Qed.

Lemma heartbeat_stopped_handle (s : State) :
  heartbeatInterval (heartbeat_stopped s) = None.
Proof. unfold heartbeat_stopped. by destruct (heartbeatInterval s) eqn:E. Qed.

Lemma heartbeat_stopped_timeouts (s : State) :
  timeouts_set (trace (heartbeat_stopped s)) = timeouts_set (trace s).
Proof.
  unfold heartbeat_stopped. destruct (heartbeatInterval s); cbn; [|done].
  rewrite timeouts_set_app. cbn. apply app_nil_r.
Qed.

Lemma heartbeat_stopped_no_reconnect (s : State) :
  no_reconnect_pending s -> no_reconnect_pending (heartbeat_stopped s).
Proof.
  intros H tid t. rewrite heartbeat_stopped_timers.
  destruct (heartbeatInterval s); [|apply H].
  intros Hk. apply lookup_delete_Some in Hk as [_ Hk]. eauto.
Qed.

Lemma deliver_close_live (sid : nat) (url tok : string) (st : ReadyState)
    (wasClean : bool) (s : State) :
  sockets s !! sid = Some (mkWebSocket url tok st) -> st <> CLOSED ->
  deliver (SocketClose sid wasClean) s =
    match emit "disconnected" (PCloseEvent wasClean) (closing sid s) with
    | (Returns _, s2) =>
        if negb wasClean && (reconnectAttempts s2 <? maxReconnectAttempts)
        then reconnect url tok s2
        else (Returns tt, s2)
    | (Throws err, s2) => (Throws err, s2)
    end.
Proof.
  intros Hws Hst. unfold deliver, bind at 1, gets at 1. rewrite Hws.
  assert (H : forall k k' : M unit,
             match st with CLOSED => k | _ => k' end = k') by (by destruct st).
  rewrite H. clear H.
  unfold bind at 1, modify at 1, onclose, bind at 1.
  rewrite stopHeartbeat_spec. fold (closing sid s).
  unfold bind at 1.
  destruct (emit "disconnected" (PCloseEvent wasClean) (closing sid s)) as [[[]|err] s2];
    [|reflexivity].
  unfold bind, gets.
  by destruct (negb wasClean && (reconnectAttempts s2 <? maxReconnectAttempts)).
Qed.

Lemma deliver_close_dead (sid : nat) (wasClean : bool) (s : State) :
  (forall ws, sockets s !! sid = Some ws -> ws_readyState ws = CLOSED) ->
  deliver (SocketClose sid wasClean) s = (Returns tt, s).
Proof.
  intros H. unfold deliver, bind, gets.
  destruct (sockets s !! sid) as [[url tok st]|]; [|reflexivity].
  specialize (H _ eq_refl). cbn in H. by subst st.
Qed.

Lemma closing_sockets (sid : nat) (url tok : string) (st : ReadyState) (s : State) :
  sockets s !! sid = Some (mkWebSocket url tok st) ->
  sockets (closing sid s) = <[sid := mkWebSocket url tok CLOSED]> (sockets s).
Proof.
  intros Hws. unfold closing, heartbeat_stopped, set_readyState. rewrite Hws. cbn.
  by destruct (heartbeatInterval s).
Qed.

Lemma closing_frame (sid : nat) (s : State) :
  let s1 := closing sid s in
  timeouts_set (trace s1) = timeouts_set (trace s) /\
  reconnectAttempts s1 = reconnectAttempts s /\
  websocket s1 = websocket s /\
  next_socket s1 = next_socket s /\
  next_timer s1 = next_timer s /\
  accepts_url s1 = accepts_url s /\
  eventListeners s1 = eventListeners s /\
  heartbeatInterval s1 = None.
Proof.
  unfold closing. cbn zeta. rewrite heartbeat_stopped_timeouts, heartbeat_stopped_handle.
  unfold heartbeat_stopped, set_readyState.
  destruct (sockets s !! sid); cbn; destruct (heartbeatInterval s); cbn; done.
Qed.

Lemma closing_no_reconnect (sid : nat) (s : State) :
  no_reconnect_pending s -> no_reconnect_pending (closing sid s).
Proof.
  intros H. apply heartbeat_stopped_no_reconnect.
  unfold set_readyState. by destruct (sockets s !! sid).
Qed.

(** A close event that schedules no reconnect: the close was clean, or the
    attempts are used up. *)
Lemma close_without_retry (sid : nat) (url tok : string) (st : ReadyState)
    (wasClean : bool) (s : State) :
  sockets s !! sid = Some (mkWebSocket url tok st) ->
  st <> CLOSED ->
  wasClean = true \/ maxReconnectAttempts <= reconnectAttempts s ->
  exists tr,
    exec (deliver (SocketClose sid wasClean)) s = set_trace tr (closing sid s) /\
    timeouts_set tr = timeouts_set (trace s).
Proof.
  intros Hws Hst Hno. unfold exec.
  rewrite (deliver_close_live sid url tok st wasClean s Hws Hst).
  destruct (closing_frame sid s) as (Htr & Hn & _).
  rewrite emit_spec.
  assert (Hcond : forall s2, reconnectAttempts s2 = reconnectAttempts s ->
            negb wasClean && (reconnectAttempts s2 <? maxReconnectAttempts) = false).
  { intros s2 ->. destruct Hno as [->|Hle]; [reflexivity|].
    destruct (Z.ltb_spec (reconnectAttempts s) maxReconnectAttempts); [lia|].
    apply andb_false_r. }
  destruct (eventListeners (closing sid s) !! "disconnected") as [l|].
  - eexists. split.
    + destruct (forEach_outcome l (PCloseEvent wasClean)) as [[]|err];
        [rewrite Hcond by exact Hn|]; reflexivity.
    + by rewrite timeouts_set_app, timeouts_set_called, app_nil_r.
  - exists (trace (closing sid s)). rewrite set_trace_same.
    rewrite Hcond by exact Hn. done.
Qed.

(** An unclean close with attempts left, and listeners that return: the
    counter goes up and the reconnect is scheduled under the next handle. *)
Lemma close_with_retry (sid : nat) (url tok : string) (st : ReadyState) (s : State) :
  sockets s !! sid = Some (mkWebSocket url tok st) ->
  st <> CLOSED ->
  reconnectAttempts s < maxReconnectAttempts ->
  quiet_on_disconnect s ->
  exists tr,
    exec (deliver (SocketClose sid false)) s =
      set_trace tr
        (set_next_timer (S (next_timer s))
          (set_timers
             (<[next_timer s :=
                  ReconnectTimer (reconnect_delay (reconnectAttempts s + 1)) url tok]>
                (timers (closing sid s)))
             (set_reconnectAttempts (reconnectAttempts s + 1) (closing sid s)))) /\
    timeouts_set tr =
      timeouts_set (trace s) ++ [reconnect_delay (reconnectAttempts s + 1)].
Proof.
  intros Hws Hst Hlt Hq. unfold exec.
  rewrite (deliver_close_live sid url tok st false s Hws Hst).
  destruct (closing_frame sid s) as (Htr & Hn & _ & _ & Hnt & _ & Hl & _).
  rewrite emit_spec. specialize (Hq false). rewrite <- Hl in Hq.
  assert (Hcond : forall s2, reconnectAttempts s2 = reconnectAttempts s ->
            negb false && (reconnectAttempts s2 <? maxReconnectAttempts) = true).
  { intros s2 ->.
    by destruct (Z.ltb_spec (reconnectAttempts s) maxReconnectAttempts); [|lia]. }
  destruct (eventListeners (closing sid s) !! "disconnected") as [l|]; cbn in Hq.
  - destruct (invoked_all _ _ Hq) as [-> ->]. rewrite Hcond by exact Hn.
    eexists. split.
    + unfold reconnect, bind, modify, gets, new_timer, bind, gets, modify, effect, modify, ret.
      cbn. rewrite Hn, Hnt. reflexivity.
    + rewrite !timeouts_set_app, timeouts_set_called, Htr. cbn. by rewrite app_nil_r.
  - rewrite Hcond by exact Hn.
    eexists. split.
    + unfold reconnect, bind, modify, gets, new_timer, bind, gets, modify, effect, modify, ret.
      cbn. rewrite Hn, Hnt. reflexivity.
    + rewrite !timeouts_set_app, Htr. reflexivity.
Qed.

(** A reconnect timer coming due: the timeout is spent and [connect] makes
    the next socket. *)
Lemma fire_reconnect (tid : nat) (delay now : Z) (url tok : string) (s : State) :
  timers s !! tid = Some (ReconnectTimer delay url tok) ->
  accepts_url s (String.append url (String.append "?token=" tok)) = true ->
  exec (deliver (TimerFire tid now)) s =
    set_websocket (Some (next_socket s))
      (set_next_socket (S (next_socket s))
         (set_sockets (<[next_socket s := mkWebSocket url tok CONNECTING]> (sockets s))
            (set_timers (delete tid (timers s)) s))).
Proof.
  intros Ht Hacc. unfold exec, deliver, bind, gets. cbn. rewrite Ht. cbn.
  unfold connect, bind, gets, modify. cbn. rewrite Hacc. reflexivity.
Qed.

Lemma failed_attempt (url tok : string) (n now : Z) (sid : nat) (s : State) :
  retrying url tok n sid s -> n < maxReconnectAttempts ->
  let s' := run [SocketClose sid false; TimerFire (next_timer s) now] s in
  retrying url tok (n + 1) (next_socket s) s' /\
  next_socket s' = S (next_socket s) /\
  next_timer s' = S (next_timer s) /\
  timeouts_set (trace s') = timeouts_set (trace s) ++ [reconnect_delay (n + 1)].
Proof.
  intros ((st & Hws & Hst) & Hlive & Hpend & Hn & Hacc & Hq) Hlt. cbn zeta.
  unfold run. cbn [fold_left].
  destruct (close_with_retry sid url tok st s Hws Hst) as (tr & -> & Htr);
    [lia | exact Hq |].
  destruct (closing_frame sid s) as (_ & _ & _ & Hns & Hnt & Ha & Hl & _).
  rewrite (fire_reconnect (next_timer s) (reconnect_delay (reconnectAttempts s + 1))
             now url tok).
  2:{ cbn. apply lookup_insert_eq. }
  2:{ cbn. by rewrite Ha. }
  cbn. rewrite Hns, Hn. repeat split; try done.
  - exists CONNECTING. split; [apply lookup_insert_eq | done].
  - intros sid' ws Hs. cbn in Hs.
    destruct (decide (sid' = next_socket s)) as [->|Hne]; [by left|right].
    rewrite lookup_insert_ne in Hs by done.
    rewrite (closing_sockets sid url tok st s Hws) in Hs.
    destruct (decide (sid' = sid)) as [->|Hne'].
    + rewrite lookup_insert_eq in Hs. by inversion Hs.
    + rewrite lookup_insert_ne in Hs by done.
      destruct (Hlive _ _ Hs); [done | assumption].
  - intros tid t Ht. cbn in Ht.
    apply lookup_delete_Some in Ht as [Hne Ht].
    rewrite lookup_insert_ne in Ht by done.
    by apply (closing_no_reconnect sid s Hpend tid t).
  - cbn. by rewrite Ha.
  - intros wasClean. cbn. rewrite Hl. apply Hq.
  - subst n. exact Htr.
Qed.

Lemma failed_attempts_run (url tok : string) (now : Z) (k : nat) :
  forall (n : Z) (sid : nat) (s : State),
    retrying url tok n sid s -> n + Z.of_nat k <= maxReconnectAttempts ->
    let s' := run (failed_attempts k sid (next_socket s) (next_timer s) now) s in
    retrying url tok (n + Z.of_nat k) (last_socket k sid (next_socket s)) s' /\
    timeouts_set (trace s') = timeouts_set (trace s) ++ map reconnect_delay (counting n k).
Proof.
  induction k as [|k IH]; intros n sid s Hr Hk; cbn zeta.
  - cbn. rewrite Z.add_0_r, app_nil_r. done.
  - cbn [failed_attempts].
    change (run (SocketClose sid false :: TimerFire (next_timer s) now :: ?l) s)
      with (run l (run [SocketClose sid false; TimerFire (next_timer s) now] s)).
    destruct (failed_attempt url tok n now sid s Hr) as (Hr' & Hns & Hnt & Htr); [lia|].
    set (s1 := run [SocketClose sid false; TimerFire (next_timer s) now] s) in *.
    rewrite <- Hns, <- Hnt.
    destruct (IH (n + 1) (next_socket s) s1 Hr') as [Hr'' Htr'']; [lia|].
    split.
    + replace (n + Z.of_nat (S k)) with (n + 1 + Z.of_nat k) by lia.
      replace (last_socket (S k) sid (next_socket s))
        with (last_socket k (next_socket s) (next_socket s1)); [exact Hr''|].
      rewrite Hns. destruct k; cbn; lia.
    + rewrite Htr'', Htr. cbn. by rewrite <- app_assoc.
Qed.

Lemma socket_is_open_closed (s : State) : all_closed s -> socket_is_open s = false.
Proof.
  intros H. unfold socket_is_open.
  destruct (websocket s) as [sid|]; [|done].
  destruct (sockets s !! sid) as [ws|] eqn:E; [|done].
  by rewrite (H _ _ E).
Qed.

(** Once every socket has closed and no reconnect is scheduled, an event
    changes nothing but the record of listener calls. *)
Lemma deliver_settled (ev : Event) (s : State) :
  all_closed s -> no_reconnect_pending s ->
  exists tr, exec (deliver ev) s = set_trace tr s /\
             timeouts_set tr = timeouts_set (trace s).
Proof.
  intros Hc Hp.
  assert (Hsame : exists tr, s = set_trace tr s /\ timeouts_set tr = timeouts_set (trace s)).
  { exists (trace s). by rewrite set_trace_same. }
  unfold exec. destruct ev as [sid|sid data|sid|sid wasClean|tid now].
  - unfold deliver, bind, gets.
    destruct (sockets s !! sid) as [[url tok st]|] eqn:E; [|exact Hsame].
    apply Hc in E. cbn in E. subst st. exact Hsame.
  - unfold deliver, bind, gets.
    destruct (sockets s !! sid) as [[url tok st]|] eqn:E; [|exact Hsame].
    apply Hc in E. cbn in E. subst st. exact Hsame.
  - unfold deliver, bind, gets, onerror.
    destruct (sockets s !! sid); [|exact Hsame].
    rewrite emit_spec. destruct (eventListeners s !! "error"); [|exact Hsame].
    eexists. split; [reflexivity|].
    by rewrite timeouts_set_app, timeouts_set_called, app_nil_r.
  - rewrite deliver_close_dead; [exact Hsame | apply Hc].
  - unfold deliver, bind, gets.
    destruct (timers s !! tid) as [[|delay url tok]|] eqn:E; [| |exact Hsame].
    + unfold heartbeat_tick, bind, gets. rewrite socket_is_open_closed by done.
      exact Hsame.
    + apply Hp in E. discriminate.
Qed.

Lemma run_settled (evs : list Event) (s : State) :
  all_closed s -> no_reconnect_pending s ->
  exists tr, run evs s = set_trace tr s /\ timeouts_set tr = timeouts_set (trace s).
Proof.
  revert s. induction evs as [|ev evs IH]; intros s Hc Hp.
  - exists (trace s). by rewrite set_trace_same.
  - change (run (ev :: evs) s) with (run evs (exec (deliver ev) s)).
    destruct (deliver_settled ev s Hc Hp) as (tr & -> & Htr).
    destruct (IH (set_trace tr s)) as (tr' & -> & Htr'); [exact Hc | exact Hp |].
    exists tr'. split; [reflexivity|].
    change (trace (set_trace tr s)) with tr in Htr'. by rewrite Htr'.
Qed.

Lemma reconnect_delay_increasing (a b : Z) :
  1 <= a -> a < b -> b <= 5 -> reconnect_delay a < reconnect_delay b <= 30000.
Proof.
  intros Ha Hab Hb.
  assert (Ha' : a = 1 \/ a = 2 \/ a = 3 \/ a = 4) by lia.
  assert (Hb' : b = 2 \/ b = 3 \/ b = 4 \/ b = 5) by lia.
  unfold reconnect_delay.
  destruct Ha' as [->|[->|[->| ->]]], Hb' as [->|[->|[->| ->]]];
    try lia; cbn; lia.
Qed.

(** C6, as stated, fails: the close handler publishes "disconnected"
    before it reconnects, so with a listener that throws an unclean close
    of the open socket ends in the exception: no timeout is set, the
    counter stays at 0 and no reconnect attempt follows. *)
Lemma reconnect_not_scheduled_when_listener_throws :
  let s := connected_with_failing_listener in
  sockets s !! 0%nat = Some (mkWebSocket "wss://host" "secret" OPEN) /\
  reconnectAttempts s = 0 /\
  fst (deliver (SocketClose 0%nat false) s) = Throws "boom" /\
  timeouts_set (trace (run [SocketClose 0%nat false] s)) = [] /\
  reconnectAttempts (run [SocketClose 0%nat false] s) = 0 /\
  timers (run [SocketClose 0%nat false] s) = ∅ /\
  timeouts_set (trace (run (failed_attempts 5 0%nat (next_socket s) (next_timer s) 0) s)) = [] /\
  ~ schedules_backoff 0%nat 0 s.
Proof.
  cbn zeta. repeat split; by vm_compute.
Qed.

(** C6, amended: provided the "disconnected" listeners return normally,
    from a connection made by [connect] (a URL the constructor accepts)
    with no reconnect counted, no other live socket and no reconnect
    pending, five attempts failing in a row set the timeouts 2000, 4000,
    8000, 16000 and 30000 ms, that is [min(1000 * 2^attempt, 30000)] for
    the attempts 1 to 5: strictly increasing and never above 30 s. When
    the socket of the fifth retry closes uncleanly as well, no timeout is
    set. The code has no failed state of its own: the counter is at its
    maximum, every socket is closed and no reconnect is scheduled, and no
    later event sets a timeout or changes that. *)
Theorem reconnect_backoff_then_stop (url tok : string) (now : Z) (sid : nat) (s : State) :
  retrying url tok 0 sid s ->
  let s5 := run (failed_attempts 5 sid (next_socket s) (next_timer s) now) s in
  let s6 := run [SocketClose (next_socket s + 4)%nat false] s5 in
  timeouts_set (trace s5) = timeouts_set (trace s) ++ [2000; 4000; 8000; 16000; 30000] /\
  [2000; 4000; 8000; 16000; 30000] =
    map (fun attempt => Z.min (1000 * 2 ^ attempt) 30000) [1; 2; 3; 4; 5] /\
  (forall a b, 1 <= a -> a < b -> b <= 5 ->
     reconnect_delay a < reconnect_delay b <= 30000) /\
  timeouts_set (trace s6) = timeouts_set (trace s5) /\
  reconnectAttempts s6 = maxReconnectAttempts /\
  all_closed s6 /\ no_reconnect_pending s6 /\
  (forall evs,
     timeouts_set (trace (run evs s6)) = timeouts_set (trace s6) /\
     reconnectAttempts (run evs s6) = maxReconnectAttempts /\
     all_closed (run evs s6) /\ no_reconnect_pending (run evs s6)).
Proof.
  intros Hr. cbn zeta.
  destruct (failed_attempts_run url tok now 5 0 sid s Hr) as [Hr5 Htr5]; [by vm_compute|].
  set (s5 := run (failed_attempts 5 sid (next_socket s) (next_timer s) now) s) in *.
  cbn [last_socket] in Hr5.
  destruct Hr5 as ((st & Hws & Hst) & Hlive & Hpend & Hn & Hacc & Hq).
  change (run [SocketClose (next_socket s + 4)%nat false] s5)
    with (exec (deliver (SocketClose (next_socket s + 4)%nat false)) s5).
  destruct (close_without_retry (next_socket s + 4) url tok st false s5 Hws Hst)
    as (tr & Hs6 & Htr6); [right; rewrite Hn; by vm_compute|].
  set (s6 := exec (deliver (SocketClose (next_socket s + 4) false)) s5) in *.
  destruct (closing_frame (next_socket s + 4) s5) as (_ & Hn6 & _).
  assert (Hc6 : all_closed s6).
  { intros sid' ws Hs.
    assert (Hsk : sockets s6 = sockets (closing (next_socket s + 4) s5))
      by (by rewrite Hs6).
    rewrite Hsk, (closing_sockets _ url tok st s5 Hws) in Hs.
    destruct (decide (sid' = (next_socket s + 4)%nat)) as [->|Hne].
    - rewrite lookup_insert_eq in Hs. by inversion Hs.
    - rewrite lookup_insert_ne in Hs by done.
      destruct (Hlive _ _ Hs); [done | assumption]. }
  assert (Hp6 : no_reconnect_pending s6).
  { intros tid t Ht.
    assert (Htm : timers s6 = timers (closing (next_socket s + 4) s5))
      by (by rewrite Hs6).
    rewrite Htm in Ht.
    exact (closing_no_reconnect (next_socket s + 4) s5 Hpend tid t Ht). }
  assert (Ha6 : reconnectAttempts s6 = maxReconnectAttempts).
  { rewrite Hs6. change (reconnectAttempts (set_trace tr ?x)) with (reconnectAttempts x).
    rewrite Hn6. exact Hn. }
  split; [exact Htr5|].
  split; [reflexivity|].
  split; [exact reconnect_delay_increasing|].
  split; [rewrite Hs6; exact Htr6|].
  split; [exact Ha6|].
  split; [exact Hc6|].
  split; [exact Hp6|].
  intros evs. destruct (run_settled evs s6 Hc6 Hp6) as (tr' & -> & Htr').
  split; [exact Htr'|]. split; [exact Ha6|]. split; [exact Hc6 | exact Hp6].
Qed.

Lemma reconnect_backoff_then_stop_witness :
  timeouts_set (trace (run (failed_attempts 5 0%nat 1%nat 1%nat 0) connecting)) =
    [] ++ [2000; 4000; 8000; 16000; 30000].
Proof.
  assert (Hr : retrying "wss://host" "secret" 0 0%nat connecting).
  { split; [exists CONNECTING; split; [reflexivity | discriminate]|].
    split.
    { intros sid' ws Hs. left.
      destruct (decide (sid' = 0%nat)) as [->|Hne]; [reflexivity|].
      change (sockets connecting) with
        (<[0%nat := mkWebSocket "wss://host" "secret" CONNECTING]> (∅ : gmap nat WebSocket)) in Hs.
      rewrite lookup_insert_ne, lookup_empty in Hs by done. discriminate. }
    split.
    { intros tid t Ht. change (timers connecting) with (∅ : gmap nat Timer) in Ht.
      rewrite lookup_empty in Ht. discriminate. }
    split; [reflexivity|]. split; [reflexivity|].
    intros wasClean. constructor. }
  exact (proj1 (reconnect_backoff_then_stop "wss://host" "secret" 0 0%nat connecting Hr)).
Defined.

(** ** Disconnecting *)

Lemma disconnect_spec (s : State) :
  exists tr, disconnect s =
    (Returns tt,
     set_webrtcConnections ∅
       (heartbeat_stopped
          (set_trace tr
             (match websocket s with
              | Some sid =>
                  set_websocket None
                    (match sockets s !! sid with
                     | Some (mkWebSocket _ _ CONNECTING) | Some (mkWebSocket _ _ OPEN) =>
                         set_readyState sid CLOSING s
                     | _ => s
                     end)
              | None => s
              end)))).
Proof.
  unfold disconnect, bind at 1, gets at 1.
  destruct (websocket s) as [sid|].
  - exists (trace s ++ [SocketClosed sid 1000]).
    unfold bind, ws_close, bind, effect, modify. cbn.
    rewrite stopHeartbeat_spec.
    destruct (sockets s !! sid) as [[url tok []]|] eqn:E; cbn; rewrite ?E; try reflexivity;
      unfold set_readyState; cbn; rewrite ?E; reflexivity.
  - exists (trace s). unfold bind, ret, modify. rewrite stopHeartbeat_spec.
    by rewrite set_trace_same.
Qed.

Lemma disconnect_timers (s : State) :
  fst (disconnect s) = Returns tt /\
  heartbeatInterval (exec disconnect s) = None /\
  timers (exec disconnect s) =
    match heartbeatInterval s with
    | Some tid => delete tid (timers s)
    | None => timers s
    end.
Proof.
  unfold exec. destruct (disconnect_spec s) as [tr ->]. cbn [fst snd].
  split; [reflexivity|].
  change (heartbeatInterval (set_webrtcConnections ∅ ?x)) with (heartbeatInterval x).
  change (timers (set_webrtcConnections ∅ ?x)) with (timers x).
  rewrite heartbeat_stopped_handle, heartbeat_stopped_timers.
  split; [reflexivity|].
  destruct (websocket s) as [sid|]; [|reflexivity].
  unfold set_readyState.
  destruct (sockets s !! sid) as [[url tok []]|]; reflexivity.
Qed.

Lemma destroy_timers (s : State) :
  fst (destroy s) = Returns tt /\
  heartbeatInterval (exec destroy s) = heartbeatInterval (exec disconnect s) /\
  timers (exec destroy s) = timers (exec disconnect s).
Proof.
  unfold exec, destroy, bind.
  destruct (disconnect_spec s) as [tr ->]. done.
Qed.

(** C8, amended: [disconnect()] and [destroy()] return having cleared the
    heartbeat interval whose handle is stored, and the stored handle; they
    cancel nothing else, so a reconnect timeout that was pending is still
    pending afterwards. When the stored handle is the only heartbeat
    interval there is, no heartbeat interval is left. *)
Theorem disconnect_stops_heartbeat_only (s : State) :
  let d := exec disconnect s in
  let x := exec destroy s in
  fst (disconnect s) = Returns tt /\ fst (destroy s) = Returns tt /\
  heartbeatInterval d = None /\ heartbeatInterval x = None /\
  timers d = match heartbeatInterval s with
             | Some tid => delete tid (timers s)
             | None => timers s
             end /\
  timers x = timers d /\
  (forall tid delay url tok,
     timers s !! tid = Some (ReconnectTimer delay url tok) ->
     heartbeatInterval s <> Some tid ->
     timers d !! tid = Some (ReconnectTimer delay url tok) /\
     timers x !! tid = Some (ReconnectTimer delay url tok)) /\
  ((forall tid, timers s !! tid = Some HeartbeatTimer -> heartbeatInterval s = Some tid) ->
   forall tid, timers d !! tid <> Some HeartbeatTimer /\
               timers x !! tid <> Some HeartbeatTimer).
Proof.
  cbn zeta.
  destruct (disconnect_timers s) as (Hd1 & Hd2 & Hd3).
  destruct (destroy_timers s) as (Hx1 & Hx2 & Hx3).
  rewrite Hx2, Hx3, Hd3.
  split; [exact Hd1|]. split; [exact Hx1|]. split; [exact Hd2|]. split; [exact Hd2|].
  split; [reflexivity|]. split; [reflexivity|]. split.
  - intros tid delay url tok Ht Hne.
    assert (match heartbeatInterval s with
            | Some tid0 => delete tid0 (timers s)
            | None => timers s
            end !! tid = Some (ReconnectTimer delay url tok)); [|done].
    destruct (heartbeatInterval s) as [h|]; [|exact Ht].
    rewrite lookup_delete_ne; [exact Ht | congruence].
  - intros Hinv tid.
    assert (match heartbeatInterval s with
            | Some tid0 => delete tid0 (timers s)
            | None => timers s
            end !! tid <> Some HeartbeatTimer); [|done].
    intros Ht. destruct (heartbeatInterval s) as [h|] eqn:E.
    + apply lookup_delete_Some in Ht as [Hne Ht]. apply Hinv in Ht. congruence.
    + apply Hinv in Ht. discriminate.
Qed.

Lemma disconnect_stops_heartbeat_only_witness :
  timers (exec disconnect dropped) !! 1%nat = Some (ReconnectTimer 2000 "wss://host" "secret") /\
  timers (exec destroy dropped) !! 1%nat = Some (ReconnectTimer 2000 "wss://host" "secret").
Proof.
  apply (disconnect_stops_heartbeat_only dropped).
  - reflexivity.
  - discriminate.
Defined.

(** C8, as stated, fails: after an unclean close the reconnect is
    scheduled; [destroy()] leaves that timeout in place, and when it comes
    due the manager connects again and, once the socket opens, runs a
    heartbeat. *)
Lemma reconnect_timer_survives_destroy :
  let s := exec destroy dropped in
  let s' := run [TimerFire 1%nat 0; SocketOpen 1%nat] s in
  timers s !! 1%nat = Some (ReconnectTimer 2000 "wss://host" "secret") /\
  ~ no_timer_left s /\
  ~ no_timer_left (exec disconnect dropped) /\
  websocket s' = Some 1%nat /\ socket_is_open s' = true /\
  heartbeatInterval s' = Some 2%nat /\ timers s' !! 2%nat = Some HeartbeatTimer.
Proof.
  cbn zeta. repeat split; by vm_compute.
Qed.

(** * Further properties *)

Arguments timeouts_set : simpl never.
Arguments calls_made : simpl never.
Arguments messages_sent : simpl never.

(** ** What a method keeps *)

Section Keeping.
Context (R : State -> State -> Prop) `{!Frame R}.

Lemma keeps_ret {A : Type} (a : A) : keeps R (ret a).
Proof. intros s. apply frame_refl. Qed.

Lemma keeps_gets {A : Type} (f : State -> A) : keeps R (gets f).
Proof. intros s. apply frame_refl. Qed.

Lemma keeps_modify (f : State -> State) :
  (forall s, R s (f s)) -> keeps R (modify f).
Proof. intros H s. apply H. Qed.

Lemma keeps_bind {A B : Type} (c : M A) (k : A -> M B) :
  keeps R c -> (forall a, keeps R (k a)) -> keeps R (bind c k).
Proof.
  intros Hc Hk s. unfold bind. specialize (Hc s).
  destruct (c s) as [[a|err] s1]; cbn in *; [|exact Hc].
  eapply frame_trans; [exact Hc | apply Hk].
Qed.

Lemma keeps_effect (e : Effect) : keeps R (effect e).
Proof. intros s. apply frame_trace. Qed.

Lemma keeps_call (o : Outcome unit) : keeps R (fun s => (o, s)).
Proof. intros s. apply frame_refl. Qed.

Lemma keeps_emit (event : string) (data : Payload) : keeps R (emit event data).
Proof.
  intros s. rewrite emit_spec.
  destruct (eventListeners s !! event); [apply frame_trace | apply frame_refl].
Qed.

Lemma keeps_send (data : ClientMessage) : keeps R (send data).
Proof.
  intros s. destruct (send_state data s) as [tr ->]. apply frame_trace.
Qed.
End Keeping.

(** One step of a proof that a method keeps a relation: split the method
    at its binds and case distinctions down to the field updates. *)
Ltac keeps_step :=
  lazymatch goal with
  | |- keeps _ (bind _ _) => apply keeps_bind; [tc_solve| |intros ?]
  | |- keeps _ (ret _) => apply keeps_ret; tc_solve
  | |- keeps _ (gets _) => apply keeps_gets; tc_solve
  | |- keeps _ (effect _) => apply keeps_effect; tc_solve
  | |- keeps _ (emit _ _) => apply keeps_emit; tc_solve
  | |- keeps _ (send _) => apply keeps_send; tc_solve
  | |- keeps _ (modify _) => apply keeps_modify; intros ?
  | |- keeps _ (match ?x with _ => _ end) => destruct x
  end.

#[local] Instance logs_extend_frame : Frame logs_extend.
Proof.
  split.
  - intros s. split; reflexivity.
  - intros s1 s2 s3 [H1 H2] [H3 H4]. split; etrans; eassumption.
  - intros s tr. split; reflexivity.
Qed.

#[local] Instance same_connection_frame : Frame same_connection.
Proof.
  split.
  - intros s. repeat split.
  - intros s1 s2 s3 H12 H23. unfold same_connection in *.
    destruct H12 as (?&?&?&?&?&?&?), H23 as (?&?&?&?&?&?&?).
    repeat split; congruence.
  - intros s tr. repeat split.
Qed.

#[local] Instance same_session_frame : Frame same_session.
Proof.
  split.
  - intros s. repeat split.
  - intros s1 s2 s3 H12 H23. unfold same_session in *.
    destruct H12 as (?&?&?&?&?&?), H23 as (?&?&?&?&?&?).
    repeat split; congruence.
  - intros s tr. repeat split.
Qed.

Lemma handleMessage_keeps_connection (data : ServerMessage) :
  keeps same_connection (handleMessage data).
Proof.
  destruct data; unfold handleMessage; repeat keeps_step; repeat split.
Qed.

Lemma handleMessage_logs_extend (data : ServerMessage) :
  keeps logs_extend (handleMessage data).
Proof.
  destruct data; unfold handleMessage; repeat keeps_step;
    split; cbn; try reflexivity; by apply prefix_app_r.
Qed.

Lemma stopHeartbeat_keeps (R : State -> State -> Prop) `{!Frame R} :
  (forall s tid, R s (set_timers (delete tid (timers s)) s)) ->
  (forall s, R s (set_heartbeatInterval None s)) ->
  keeps R stopHeartbeat.
Proof.
  intros H1 H2. unfold stopHeartbeat, clearInterval. repeat keeps_step; auto.
Qed.

Lemma deliver_logs_extend (ev : Event) : keeps logs_extend (deliver ev).
Proof.
  assert (Hsame : forall s s', edits s' = edits s -> messages s' = messages s ->
                               logs_extend s s').
  { intros s s' He Hm. split; [by rewrite He | by rewrite Hm]. }
  assert (Hrs : forall sid st s, logs_extend s (set_readyState sid st s)).
  { intros sid st s. apply Hsame; unfold set_readyState;
      by destruct (sockets s !! sid). }
  destruct ev; unfold deliver.
  - repeat keeps_step; try apply frame_refl; try apply Hrs.
    unfold onopen, startHeartbeat, new_timer. repeat keeps_step; by apply Hsame.
  - repeat keeps_step; try apply frame_refl; apply handleMessage_logs_extend.
  - unfold onerror. repeat keeps_step.
  - repeat keeps_step; try apply frame_refl; try apply Hrs;
      unfold onclose, reconnect, new_timer;
      repeat (keeps_step || (apply stopHeartbeat_keeps; [tc_solve|intros..]));
      by apply Hsame.
  - repeat keeps_step; try apply frame_refl; try (by apply Hsame).
    + unfold heartbeat_tick. repeat keeps_step.
    + unfold connect. repeat keeps_step; by apply Hsame.
Qed.

Lemma run_keeps (R : State -> State -> Prop) `{!Frame R} (evs : list Event) :
  (forall ev, keeps R (deliver ev)) -> forall s, R s (run evs s).
Proof.
  intros H. induction evs as [|ev evs IH]; intros s.
  - apply frame_refl.
  - change (run (ev :: evs) s) with (run evs (exec (deliver ev) s)).
    eapply frame_trans; [apply H | apply IH].
Qed.

(** X1: whatever the browser delivers (socket events, messages, timers),
    the edit log and the message history only grow: their old entries stay
    where they were and new ones are added at the end. *)
Theorem event_loop_logs_append_only (evs : list Event) (s : State) :
  edits s `prefix_of` edits (run evs s) /\
  messages s `prefix_of` messages (run evs s).
Proof. apply (run_keeps logs_extend evs deliver_logs_extend s). Qed.

(** X2: handling an inbound message never touches the connection: the
    socket in use, the sockets and timers that exist, the retry counter and
    the heartbeat handle are what they were, for every message and however
    the listeners end. *)
Theorem handleMessage_leaves_connection (data : ServerMessage) (s : State) :
  let s' := exec (handleMessage data) s in
  websocket s' = websocket s /\
  sockets s' = sockets s /\
  timers s' = timers s /\
  reconnectAttempts s' = reconnectAttempts s /\
  heartbeatInterval s' = heartbeatInterval s.
Proof.
  destruct (handleMessage_keeps_connection data s) as (?&?&?&?&?&?&?).
  repeat split; assumption.
Qed.

(** ** More on [transformEdit] and the edit log *)

Lemma with_position_same (e : CollaborationEdit) :
  with_position e (edit_position e) = e.
Proof. by destruct e. Qed.

Lemma transformEdit_moves (e o : CollaborationEdit) :
  exists p, transformEdit e o = with_position e p.
Proof.
  unfold transformEdit.
  destruct (edit_timestamp e <=? edit_timestamp o);
    [exists (edit_position e); by rewrite with_position_same|].
  destruct (edit_type o); cbn;
    match goal with |- context [if ?c then _ else _] => destruct c end;
    eauto; exists (edit_position e); by rewrite with_position_same.
Qed.

Lemma transform_incoming_moves (log : list CollaborationEdit) (e : CollaborationEdit) :
  exists p, transform_incoming log e = with_position e p.
Proof.
  unfold transform_incoming. revert e.
  induction log as [|o log IH]; intros e; cbn.
  - exists (edit_position e). by rewrite with_position_same.
  - destruct (transformEdit_moves e o) as [p ->].
    destruct (IH (with_position e p)) as [q ->]. by exists q.
Qed.

(** X3: transforming changes nothing of an edit but its position. The
    edit that [handleMessage] appends for an incoming edit has the id,
    kind, content, length, author and timestamp of the edit received,
    whatever the log holds. *)
Theorem incoming_edit_keeps_all_but_position (e : CollaborationEdit) (s : State) :
  exists t p,
    edits (exec (handleMessage (MEdit e)) s) = edits s ++ [t] /\
    t = with_position e p /\
    edit_id t = edit_id e /\ edit_type t = edit_type e /\
    edit_content t = edit_content e /\ edit_length t = edit_length e /\
    edit_userId t = edit_userId e /\ edit_timestamp t = edit_timestamp e.
Proof.
  destruct (transform_incoming_moves (edits s) e) as [p Hp].
  exists (transform_incoming (edits s) e), p.
  split; [apply handleMessage_edit_log|]. split; [exact Hp|].
  rewrite Hp. repeat split.
Qed.

Lemma earlier_than_transformEdit (e o : CollaborationEdit) (log : list CollaborationEdit) :
  earlier_than (transformEdit e o) log = earlier_than e log.
Proof. unfold earlier_than. by rewrite transformEdit_timestamp. Qed.

Lemma content_length_nonneg (o : CollaborationEdit) : 0 <= content_length o.
Proof. unfold content_length. lia. Qed.

Lemma inserted_length_nonneg (log : list CollaborationEdit) : 0 <= inserted_length log.
Proof.
  induction log as [|o log IH]; [cbn; lia|].
  change (inserted_length (o :: log)) with (content_length o + inserted_length log).
  pose proof (content_length_nonneg o). lia.
Qed.

Lemma earlier_than_cons (e o : CollaborationEdit) (log : list CollaborationEdit) :
  earlier_than e (o :: log) =
    if edit_timestamp o <? edit_timestamp e
    then o :: earlier_than e log
    else earlier_than e log.
Proof. reflexivity. Qed.

Lemma transformEdit_insert_bounds (e o : CollaborationEdit) :
  edit_type o = Insert ->
  edit_position e <= edit_position (transformEdit e o)
    <= edit_position e + content_length o.
Proof.
  intros Ho. pose proof (content_length_nonneg o) as Hc.
  unfold transformEdit. rewrite Ho.
  destruct (edit_timestamp e <=? edit_timestamp o); [lia|].
  destruct (edit_position e >=? edit_position o); cbn; lia.
Qed.

(** X4: against a log that holds only inserts, an incoming edit never
    moves back, and it moves forward by at most the total length of the
    inserts whose timestamp is strictly smaller than its own. *)
Theorem incoming_edit_against_inserts (log : list CollaborationEdit) (e : CollaborationEdit) :
  Forall (fun o => edit_type o = Insert) log ->
  edit_position e <= edit_position (transform_incoming log e) /\
  edit_position (transform_incoming log e)
    <= edit_position e + inserted_length (earlier_than e log).
Proof.
  intros Hall. revert e.
  induction Hall as [|o log Ho _ IH]; intros e.
  - cbn. lia.
  - change (transform_incoming (o :: log) e)
      with (transform_incoming log (transformEdit e o)).
    specialize (IH (transformEdit e o)).
    rewrite earlier_than_transformEdit in IH.
    rewrite earlier_than_cons.
    pose proof (inserted_length_nonneg (earlier_than e log)) as Hn.
    destruct (Z.ltb_spec (edit_timestamp o) (edit_timestamp e)) as [Hlt|Hle].
    + pose proof (transformEdit_insert_bounds e o Ho) as Hb.
      change (inserted_length (o :: earlier_than e log))
        with (content_length o + inserted_length (earlier_than e log)).
      lia.
    + rewrite (transformEdit_not_later e o Hle) in *. exact IH.
Qed.

Lemma incoming_edit_against_inserts_witness :
  edit_position typedY <= edit_position (transform_incoming [typedX] typedY) /\
  edit_position (transform_incoming [typedX] typedY)
    <= edit_position typedY + inserted_length (earlier_than typedY [typedX]).
Proof.
  apply (incoming_edit_against_inserts [typedX] typedY).
  repeat constructor.
Defined.

(** X5: an edit that moves nothing. A delete whose length is absent (or
    0), and a replace whose content is as long as what it replaces, leave
    every edit transformed against them unchanged. *)
Theorem transformEdit_against_empty_change (E O : CollaborationEdit) :
  (edit_type O = Delete /\ length_or_0 (edit_length O) = 0) \/
  (edit_type O = Replace /\ length_or_0 (edit_length O) = content_length O) ->
  transformEdit E O = E.
Proof.
  intros [[Ht Hl]|[Ht Hl]]; unfold transformEdit; rewrite Ht;
    destruct (edit_timestamp E <=? edit_timestamp O); try reflexivity;
    destruct (edit_position E >? edit_position O); try reflexivity; cbn;
    rewrite Hl;
    [replace (edit_position E - 0) with (edit_position E) by lia
    |replace (edit_position E + (content_length O - content_length O))
       with (edit_position E) by lia];
    apply with_position_same.
Qed.

Lemma transformEdit_against_empty_change_witness :
  transformEdit lateEdit (mkEdit "d" Delete 0 "" None "u2" 1) = lateEdit.
Proof.
  apply transformEdit_against_empty_change. left. split; reflexivity.
Defined.

Lemma transform_incoming_app (log1 log2 : list CollaborationEdit) (e : CollaborationEdit) :
  transform_incoming (log1 ++ log2) e = transform_incoming log2 (transform_incoming log1 e).
Proof. unfold transform_incoming. apply fold_left_app. Qed.

Lemma transform_incoming_timestamp (log : list CollaborationEdit) (e : CollaborationEdit) :
  edit_timestamp (transform_incoming log e) = edit_timestamp e.
Proof.
  destruct (transform_incoming_moves log e) as [p ->]. reflexivity.
Qed.

(** X6: the log is not deduplicated. When the edit that [sendEdit] has
    just appended comes back from the server, [handleMessage] appends it a
    second time, under the same id: the log grows by two entries for one
    edit, and the copy is not transformed against the original. *)
Theorem echoed_edit_is_logged_twice (d : EditDraft) (newId : string) (now : Z)
    (s : State) (u : CollaborationUser) (r : CollaborationRoom) :
  currentUser s = Some u -> currentRoom s = Some r ->
  let sent := fullEdit d newId (user_id u) now in
  let s' := exec (handleMessage (MEdit sent)) (exec (sendEdit d newId now) s) in
  edits s' = edits s ++ [sent; transform_incoming (edits s) sent] /\
  edit_id (transform_incoming (edits s) sent) = newId /\
  length (edits s') = S (S (length (edits s))).
Proof.
  intros Hu Hr sent s'. subst s'.
  destruct (sendEdit_appends d newId now s u r Hu Hr) as [Hlog _].
  fold sent in Hlog.
  rewrite handleMessage_edit_log, Hlog, transform_incoming_app.
  assert (Hself : transform_incoming [sent] (transform_incoming (edits s) sent)
                  = transform_incoming (edits s) sent).
  { unfold transform_incoming at 1. cbn [fold_left].
    apply transformEdit_not_later. rewrite transform_incoming_timestamp. lia. }
  rewrite Hself, <- app_assoc. cbn [app].
  split; [reflexivity|]. split.
  - destruct (transform_incoming_moves (edits s) sent) as [p ->]. reflexivity.
  - rewrite length_app. cbn. lia.
Qed.

Lemma echoed_edit_is_logged_twice_witness :
  length (edits (exec (handleMessage (MEdit (fullEdit negativeDraft "id1" (user_id alice) 7)))
                      (exec (sendEdit negativeDraft "id1" 7) in_room)))
    = S (S (length (edits in_room))).
Proof.
  apply (echoed_edit_is_logged_twice negativeDraft "id1" 7 in_room alice room_r1);
    reflexivity.
Defined.

(** X7: the log is kept in arrival order, not in timestamp order. An
    incoming edit that is not newer than any entry of the log (so also any
    edit arriving at an empty log) is appended at the end exactly as
    received. *)
Theorem older_incoming_edit_is_appended_unchanged (e : CollaborationEdit) (s : State) :
  Forall (fun o => edit_timestamp e <= edit_timestamp o) (edits s) ->
  edits (exec (handleMessage (MEdit e)) s) = edits s ++ [e].
Proof.
  intros Hall. rewrite handleMessage_edit_log. f_equal. f_equal.
  unfold transform_incoming.
  induction Hall as [|o log Ho _ IH]; cbn; [reflexivity|].
  by rewrite transformEdit_not_later.
Qed.

Lemma older_incoming_edit_is_appended_unchanged_witness :
  edits (exec (handleMessage (MEdit typedX))
              (exec (handleMessage (MEdit typedY)) (initial (fun _ => true))))
    = [typedY] ++ [typedX].
Proof.
  apply (older_incoming_edit_is_appended_unchanged typedX
           (exec (handleMessage (MEdit typedY)) (initial (fun _ => true)))).
  repeat constructor. cbn. lia.
Defined.

(** ** Subscribing and unsubscribing *)

Lemma set_eventListeners_same (s : State) :
  set_eventListeners (eventListeners s) s = s.
Proof. by destruct s. Qed.

Lemma remove_first_absent (id : nat) (l : list Callback) :
  ~ In id (listener_ids l) -> remove_first id l = l.
Proof.
  induction l as [|cb l IH]; [reflexivity|].
  cbn [remove_first listener_ids map In]. intros Hn.
  destruct (Nat.eqb_spec (cb_id cb) id) as [He|Hne]; [tauto|].
  rewrite IH; [reflexivity | tauto].
Qed.

Lemma remove_first_last (cb : Callback) (l rest : list Callback) :
  ~ In (cb_id cb) (listener_ids l) ->
  remove_first (cb_id cb) (l ++ cb :: rest) = l ++ rest.
Proof.
  induction l as [|c l IH]; cbn [remove_first listener_ids map In app]; intros Hn.
  - by rewrite Nat.eqb_refl.
  - destruct (Nat.eqb_spec (cb_id c) (cb_id cb)) as [He|Hne]; [tauto|].
    rewrite IH; [reflexivity | tauto].
Qed.

(** X8: subscribing a listener and unsubscribing it again is a round
    trip. When the event already had a listener list that does not hold
    the listener, the manager is back in the state it was in; when the
    event had no list yet, it is left with an empty one. *)
Theorem on_then_off_round_trip (event : string) (cb : Callback) (s : State) :
  let s' := exec (off event cb) (exec (on event cb) s) in
  (forall listeners,
     eventListeners s !! event = Some listeners ->
     ~ In (cb_id cb) (listener_ids listeners) ->
     s' = s) /\
  (eventListeners s !! event = None ->
   eventListeners s' = <[event := []]> (eventListeners s)).
Proof.
  cbn zeta. unfold exec, on, off, modify. cbn. rewrite lookup_insert_eq. cbn.
  rewrite insert_insert_eq. split.
  - intros l Hl Hn. rewrite Hl. cbn.
    rewrite (remove_first_last cb l [] Hn), app_nil_r.
    rewrite (insert_id _ _ _ Hl).
    change (set_eventListeners ?m (set_eventListeners _ s)) with (set_eventListeners m s).
    apply set_eventListeners_same.
  - intros Hl. rewrite Hl. cbn. by rewrite Nat.eqb_refl.
Qed.

Lemma on_then_off_round_trip_witness :
  exec (off "edit" (mkCallback 3 (fun _ => Returns tt)))
       (exec (on "edit" (mkCallback 3 (fun _ => Returns tt))) two_listeners)
    = two_listeners.
Proof.
  destruct (on_then_off_round_trip "edit" (mkCallback 3 (fun _ => Returns tt)) two_listeners)
    as [H _].
  apply (H [failing; quiet]).
  - by vm_compute.
  - cbn. intros [H1|[H1|[]]]; discriminate.
Defined.

(** X9: unsubscribing a listener that is not subscribed (its event has no
    listener list, or the list does not hold it) returns and changes
    nothing. *)
Theorem off_of_unsubscribed_listener (event : string) (cb : Callback) (s : State) :
  (eventListeners s !! event = None \/
   exists listeners,
     eventListeners s !! event = Some listeners /\
     ~ In (cb_id cb) (listener_ids listeners)) ->
  off event cb s = (Returns tt, s).
Proof.
  unfold off, modify. intros [Hl|(l & Hl & Hn)]; rewrite Hl; [reflexivity|].
  rewrite (remove_first_absent _ _ Hn), (insert_id _ _ _ Hl).
  by rewrite set_eventListeners_same.
Qed.

Lemma off_of_unsubscribed_listener_witness :
  off "message" quiet two_listeners = (Returns tt, two_listeners) /\
  off "edit" (mkCallback 3 (fun _ => Returns tt)) two_listeners = (Returns tt, two_listeners).
Proof.
  split; apply off_of_unsubscribed_listener.
  - left. by vm_compute.
  - right. exists [failing; quiet]. split; [by vm_compute|].
    cbn. intros [H1|[H1|[]]]; discriminate.
Defined.

Lemma off_trace (event : string) (cb : Callback) (s : State) :
  trace (exec (off event cb) s) = trace s.
Proof.
  unfold exec, off, modify. cbn. by destruct (eventListeners s !! event).
Qed.

(** X10: [off] removes one subscription, the oldest. A listener that was
    subscribed twice to an event is still subscribed once after one
    [off], and publishing the event still calls it, once, after the
    listeners that were there before. *)
Theorem off_removes_one_subscription (event : string) (cb : Callback) (data : Payload)
    (s : State) (listeners : list Callback) :
  eventListeners s !! event = Some listeners ->
  ~ In (cb_id cb) (listener_ids listeners) ->
  let s' := exec (off event cb) (exec (on event cb) (exec (on event cb) s)) in
  eventListeners s' !! event = Some (listeners ++ [cb]) /\
  (Forall (fun c => cb_run c data = Returns tt) (listeners ++ [cb]) ->
   calls_made (trace (exec (emit event data) s')) =
     calls_made (trace s) ++ map (call_of data) (listeners ++ [cb])).
Proof.
  intros Hl Hn. cbn zeta.
  assert (Hs' : eventListeners (exec (off event cb) (exec (on event cb) (exec (on event cb) s)))
                  !! event = Some (listeners ++ [cb])).
  { unfold exec, on, off, modify. cbn. rewrite !lookup_insert_eq. cbn.
    rewrite lookup_insert_eq, Hl. cbn.
    rewrite <- app_assoc. cbn [app].
    by rewrite (remove_first_last cb listeners [cb] Hn). }
  split; [exact Hs'|].
  intros Hall. unfold exec at 1. rewrite emit_spec, Hs'. cbn [snd].
  destruct (invoked_all _ _ Hall) as [-> _].
  change (trace (set_trace ?tr _)) with tr.
  rewrite calls_made_app, calls_made_called. f_equal.
  by rewrite off_trace.
Qed.

Lemma off_removes_one_subscription_witness :
  eventListeners
    (exec (off "edit" (mkCallback 3 (fun _ => Returns tt)))
       (exec (on "edit" (mkCallback 3 (fun _ => Returns tt)))
          (exec (on "edit" (mkCallback 3 (fun _ => Returns tt))) two_listeners)))
    !! "edit" = Some ([failing; quiet] ++ [mkCallback 3 (fun _ => Returns tt)]).
Proof.
  apply (off_removes_one_subscription "edit" (mkCallback 3 (fun _ => Returns tt))
           PUndefined two_listeners [failing; quiet]).
  - by vm_compute.
  - cbn. intros [H1|[H1|[]]]; discriminate.
Defined.

(** ** The presence table *)

Lemma handleMessage_user_joined_users (u : CollaborationUser) (s : State) :
  users (exec (handleMessage (MUserJoined u)) s) = <[user_id u := u]> (users s).
Proof.
  unfold exec. cbn. unfold bind, modify. cbn. rewrite emit_spec. cbn.
  by destruct (eventListeners s !! "user_joined").
Qed.

Lemma handleMessage_user_left_users (userId : string) (s : State) :
  users (exec (handleMessage (MUserLeft userId)) s) = delete userId (users s).
Proof.
  unfold exec. cbn. unfold bind, modify. cbn. rewrite emit_spec. cbn.
  by destruct (eventListeners s !! "user_left").
Qed.

(** X11: a user who joins and leaves is gone without a trace in the
    table. After [user_joined] the user is found under their id; after the
    [user_left] that follows, the table is the one from before, when the id
    was not in it. *)
Theorem user_joined_then_left_round_trip (u : CollaborationUser) (s : State) :
  users s !! user_id u = None ->
  let s1 := exec (handleMessage (MUserJoined u)) s in
  let s2 := exec (handleMessage (MUserLeft (user_id u))) s1 in
  users s1 !! user_id u = Some u /\
  users s2 = users s.
Proof.
  intros Hu. cbn zeta.
  rewrite handleMessage_user_left_users, handleMessage_user_joined_users.
  split; [apply lookup_insert_eq|].
  rewrite delete_insert_eq. by apply delete_id.
Qed.

Lemma user_joined_then_left_round_trip_witness :
  users (exec (handleMessage (MUserLeft (user_id dave)))
              (exec (handleMessage (MUserJoined dave)) in_room))
    = users in_room.
Proof.
  apply (user_joined_then_left_round_trip dave in_room). by vm_compute.
Defined.

(** X12: a [user_left] for a user who is not in the table leaves the
    table as it is, and the "user_left" listeners are called all the same
    (unlike a cursor update for an unknown user, which is silent). *)
Theorem user_left_for_unknown_user (userId : string) (s : State)
    (listeners : list Callback) :
  users s !! userId = None ->
  eventListeners s !! "user_left" = Some listeners ->
  Forall (fun cb => cb_run cb (PUserId userId) = Returns tt) listeners ->
  let s' := exec (handleMessage (MUserLeft userId)) s in
  users s' = users s /\
  calls_made (trace s') =
    calls_made (trace s) ++ map (call_of (PUserId userId)) listeners.
Proof.
  intros Hu Hl Hall. cbn zeta. split.
  - rewrite handleMessage_user_left_users. by apply delete_id.
  - unfold exec. cbn. unfold bind, modify. cbn. rewrite emit_spec. cbn.
    rewrite Hl. cbn. destruct (invoked_all _ _ Hall) as [-> _].
    by rewrite calls_made_app, calls_made_called.
Qed.

Lemma user_left_for_unknown_user_witness :
  users (exec (handleMessage (MUserLeft "ghost"))
              (exec (on "user_left" quiet) in_room))
    = users (exec (on "user_left" quiet) in_room).
Proof.
  apply (user_left_for_unknown_user "ghost" (exec (on "user_left" quiet) in_room) [quiet]).
  - by vm_compute.
  - by vm_compute.
  - repeat constructor.
Defined.

Lemma handleMessage_cursor_update_known (userId : string) (c : Cursor)
    (u : CollaborationUser) (s : State) :
  users s !! userId = Some u ->
  exists tr,
    exec (handleMessage (MCursorUpdate userId c)) s =
      set_trace tr (set_users (<[userId := with_cursor u c]> (users s)) s) /\
    calls_made tr =
      calls_made (trace s) ++
      map (call_of (PCursor userId c))
          (invoked (default [] (eventListeners s !! "cursor_update")) (PCursor userId c)).
Proof.
  intros Hu. unfold exec. cbn. unfold bind, gets, modify. cbn. rewrite Hu.
  rewrite emit_spec. cbn.
  destruct (eventListeners s !! "cursor_update") as [l|]; cbn.
  - eexists. split; [reflexivity|]. by rewrite calls_made_app, calls_made_called.
  - exists (trace s). split; [|by rewrite app_nil_r].
    by destruct s.
Qed.

Lemma handleMessage_selection_update_known (userId : string) (sel : Selection)
    (u : CollaborationUser) (s : State) :
  users s !! userId = Some u ->
  exists tr,
    exec (handleMessage (MSelectionUpdate userId sel)) s =
      set_trace tr (set_users (<[userId := with_selection u sel]> (users s)) s) /\
    calls_made tr =
      calls_made (trace s) ++
      map (call_of (PSelection userId sel))
          (invoked (default [] (eventListeners s !! "selection_update"))
                   (PSelection userId sel)).
Proof.
  intros Hu. unfold exec. cbn. unfold bind, gets, modify. cbn. rewrite Hu.
  rewrite emit_spec. cbn.
  destruct (eventListeners s !! "selection_update") as [l|]; cbn.
  - eexists. split; [reflexivity|]. by rewrite calls_made_app, calls_made_called.
  - exists (trace s). split; [|by rewrite app_nil_r].
    by destruct s.
Qed.

(** X13: for a user who is in the table, a cursor update and a selection
    update that follows both stick: the record then carries the new cursor
    and the new selection and is otherwise the one from before, no other
    user is touched and none is created, and the "cursor_update" listeners
    are called with the user id and the cursor. *)
Theorem presence_updates_for_known_user (userId : string) (c : Cursor) (sel : Selection)
    (u : CollaborationUser) (s : State) :
  users s !! userId = Some u ->
  let s1 := exec (handleMessage (MCursorUpdate userId c)) s in
  let s2 := exec (handleMessage (MSelectionUpdate userId sel)) s1 in
  users s1 !! userId = Some (with_cursor u c) /\
  users s2 !! userId = Some (with_selection (with_cursor u c) sel) /\
  (forall k, k <> userId -> users s2 !! k = users s !! k) /\
  dom (users s2) = dom (users s) /\
  calls_made (trace s1) =
    calls_made (trace s) ++
    map (call_of (PCursor userId c))
        (invoked (default [] (eventListeners s !! "cursor_update")) (PCursor userId c)).
Proof.
  intros Hu. cbn zeta.
  destruct (handleMessage_cursor_update_known userId c u s Hu) as (tr1 & -> & Hc).
  set (s1 := set_trace tr1 _).
  assert (Hu1 : users s1 !! userId = Some (with_cursor u c)) by apply lookup_insert_eq.
  destruct (handleMessage_selection_update_known userId sel _ s1 Hu1) as (tr2 & -> & _).
  split; [exact Hu1|]. cbn. split; [apply lookup_insert_eq|]. split; [|split].
  - intros k Hk. by rewrite !lookup_insert_ne.
  - rewrite dom_insert_lookup_L by (rewrite lookup_insert_eq; eauto).
    by rewrite dom_insert_lookup_L by eauto.
  - exact Hc.
Qed.

Lemma presence_updates_for_known_user_witness :
  users (exec (handleMessage (MCursorUpdate "u2" (mkCursor 4 5))) in_room) !! "u2"
    = Some (with_cursor bob (mkCursor 4 5)).
Proof.
  apply (presence_updates_for_known_user "u2" (mkCursor 4 5) (mkSelection 0 1) bob in_room).
  by vm_compute.
Defined.

(** ** Rooms, and working without a connection *)

Lemma messages_sent_app (tr tr' : list Effect) :
  messages_sent (tr ++ tr') = messages_sent tr ++ messages_sent tr'.
Proof. apply omap_app. Qed.

Lemma messages_sent_called (data : Payload) (l : list Callback) :
  messages_sent (map (called data) l) = [].
Proof. induction l; cbn; done. Qed.

Lemma send_spec (data : ClientMessage) (s : State) :
  send data s =
    (Returns tt, if socket_is_open s then set_trace (trace s ++ [Sent data]) s else s).
Proof. unfold send, bind, gets. by destruct (socket_is_open s). Qed.

Lemma set_users_same (s : State) : set_users (users s) s = s.
Proof. by destruct s. Qed.

(** X14: [leaveRoom] leaves locally, whatever the server does: with a
    current room and user, the room is unset and the presence table
    emptied, while the current user, both logs and the listeners stay;
    from then on [sendEdit] does nothing. Without a current room or user,
    [leaveRoom] itself does nothing. *)
Theorem leaveRoom_clears_room_only (s : State) :
  let s' := exec leaveRoom s in
  (forall room user,
     currentRoom s = Some room -> currentUser s = Some user ->
     currentRoom s' = None /\ users s' = ∅ /\
     currentUser s' = Some user /\
     edits s' = edits s /\ messages s' = messages s /\
     eventListeners s' = eventListeners s /\
     forall d newId now, sendEdit d newId now s' = (Returns tt, s')) /\
  (currentRoom s = None \/ currentUser s = None -> leaveRoom s = (Returns tt, s)).
Proof.
  cbn zeta. split.
  - intros room user Hr Hu.
    assert (Hs : exists tr, exec leaveRoom s =
                   set_users ∅ (set_currentRoom None (set_trace tr s))).
    { unfold exec, leaveRoom, bind, gets. cbn. rewrite Hr, Hu.
      rewrite send_spec. unfold modify. cbn.
      destruct (socket_is_open s); eauto. }
    destruct Hs as [tr ->].
    split; [reflexivity|]. split; [reflexivity|]. split; [exact Hu|].
    split; [reflexivity|]. split; [reflexivity|]. split; [reflexivity|].
    intros d newId now. apply sendEdit_without_session. by right.
  - intros H. unfold leaveRoom, bind, gets. cbn.
    destruct (currentRoom s), (currentUser s); try reflexivity.
    destruct H; discriminate.
Qed.

Lemma leaveRoom_clears_room_only_witness :
  currentRoom (exec leaveRoom in_room) = None /\
  users (exec leaveRoom in_room) = ∅ /\
  leaveRoom (initial (fun _ => true)) = (Returns tt, initial (fun _ => true)).
Proof.
  destruct (leaveRoom_clears_room_only in_room) as [H _].
  destruct (H room_r1 (mkUser "u1" "Alice" "alice@example.org" None "red" None None 0 Online))
    as (H1 & H2 & _); [reflexivity | reflexivity |].
  destruct (leaveRoom_clears_room_only (initial (fun _ => true))) as [_ H'].
  split; [exact H1|]. split; [exact H2|]. apply H'. by left.
Defined.





(** ** More on the connection *)

Lemma heartbeat_stopped_frame (s : State) :
  let s' := heartbeat_stopped s in
  websocket s' = websocket s /\
  sockets s' = sockets s /\
  next_socket s' = next_socket s /\
  next_timer s' = next_timer s /\
  reconnectAttempts s' = reconnectAttempts s /\
  accepts_url s' = accepts_url s /\
  same_session s s'.
Proof.
  unfold heartbeat_stopped. destruct (heartbeatInterval s); repeat split.
Qed.

(** X17: [destroy] empties the listeners, the presence table and both
    logs and drops the socket, but it keeps the current user, the current
    room and the retry counter. So after [destroy] publishing reaches
    nobody, yet a manager that was in a room still accepts [sendEdit],
    into the emptied log. *)
Theorem destroy_keeps_user_and_room (s : State) :
  let s' := exec destroy s in
  eventListeners s' = ∅ /\ users s' = ∅ /\ messages s' = [] /\ edits s' = [] /\
  websocket s' = None /\ webrtcConnections s' = ∅ /\
  currentUser s' = currentUser s /\ currentRoom s' = currentRoom s /\
  reconnectAttempts s' = reconnectAttempts s /\
  (forall event data, emit event data s' = (Returns tt, s')) /\
  (forall user room d newId now,
     currentUser s = Some user -> currentRoom s = Some room ->
     edits (exec (sendEdit d newId now) s') = [fullEdit d newId (user_id user) now]).
Proof.
  cbn zeta.
  assert (Hs : exists s0,
    exec destroy s =
      set_edits [] (set_messages [] (set_users ∅ (set_eventListeners ∅
        (set_webrtcConnections ∅ (heartbeat_stopped s0))))) /\
    websocket s0 = None /\ currentUser s0 = currentUser s /\
    currentRoom s0 = currentRoom s /\ reconnectAttempts s0 = reconnectAttempts s).
  { unfold exec, destroy, bind. destruct (disconnect_spec s) as [tr ->].
    unfold modify. cbn [fst snd]. eexists. split; [reflexivity|].
    destruct (websocket s) as [sid|] eqn:Ew.
    - unfold set_readyState.
      destruct (sockets s !! sid) as [[url tok []]|]; repeat split.
    - split; [exact Ew | repeat split]. }
  destruct Hs as (s0 & -> & Hw & Hu & Hr & Hn).
  destruct (heartbeat_stopped_frame s0) as (Hw' & _ & _ & _ & Hn' & _ & Hu' & Hr' & _).
  set (s' := set_edits _ _).
  assert (Hcu : currentUser s' = currentUser s) by (subst s'; cbn; congruence).
  assert (Hcr : currentRoom s' = currentRoom s) by (subst s'; cbn; congruence).
  split; [reflexivity|]. split; [reflexivity|]. split; [reflexivity|].
  split; [reflexivity|]. split; [subst s'; cbn; congruence|]. split; [reflexivity|].
  split; [exact Hcu|]. split; [exact Hcr|].
  split; [subst s'; cbn; congruence|]. split.
  - intros event data. by rewrite emit_spec.
  - intros user room d newId now Hus Hro.
    destruct (sendEdit_appends d newId now s' user room) as [-> _]; [congruence..|].
    reflexivity.
Qed.

Lemma destroy_keeps_user_and_room_witness :
  edits (exec (sendEdit negativeDraft "id1" 7) (exec destroy in_room)) =
    [fullEdit negativeDraft "id1" "u1" 7].
Proof.
  destruct (destroy_keeps_user_and_room in_room) as (_&_&_&_&_&_&_&_&_&_&H).
  apply (H (mkUser "u1" "Alice" "alice@example.org" None "red" None None 0 Online) room_r1);
    reflexivity.
Defined.

(** X18: [connect] either fails before touching anything or adds a
    socket. When the constructor rejects the URL it returns [false] and
    the manager is unchanged; otherwise it returns [true] and the new
    socket, still connecting, becomes the one in use, while every socket
    made before stays as it was (a live one is not closed) and the retry
    counter and the timers are untouched. *)
Theorem connect_adds_a_socket (serverUrl authToken : string) (s : State) :
  let url := String.append serverUrl (String.append "?token=" authToken) in
  (accepts_url s url = false -> connect serverUrl authToken s = (Returns false, s)) /\
  (accepts_url s url = true ->
   let s' := exec (connect serverUrl authToken) s in
   fst (connect serverUrl authToken s) = Returns true /\
   websocket s' = Some (next_socket s) /\
   sockets s' !! next_socket s = Some (mkWebSocket serverUrl authToken CONNECTING) /\
   (forall sid, sid <> next_socket s -> sockets s' !! sid = sockets s !! sid) /\
   reconnectAttempts s' = reconnectAttempts s /\
   timers s' = timers s /\ heartbeatInterval s' = heartbeatInterval s /\
   trace s' = trace s).
Proof.
  cbn zeta. unfold exec, connect, bind, gets, modify. cbn. split; intros ->.
  - reflexivity.
  - cbn. split; [reflexivity|]. split; [reflexivity|].
    split; [apply lookup_insert_eq|]. split; [|repeat split].
    intros sid Hne. by apply lookup_insert_ne.
Qed.

Lemma connect_adds_a_socket_witness :
  connect "not a url" "secret" (initial (fun _ => false)) =
    (Returns false, initial (fun _ => false)) /\
  websocket (exec (connect "wss://other" "secret") connected) = Some 1%nat /\
  sockets (exec (connect "wss://other" "secret") connected) !! 0%nat = sockets connected !! 0%nat.
Proof.
  destruct (connect_adds_a_socket "not a url" "secret" (initial (fun _ => false))) as [H _].
  destruct (connect_adds_a_socket "wss://other" "secret" connected) as [_ H'].
  destruct H' as (_ & H1 & _ & H2 & _); [reflexivity|].
  split; [apply H; reflexivity|]. split; [exact H1|].
  apply H2. vm_compute. discriminate.
Defined.

Lemma closing_lookup (sid : nat) (url tok : string) (st : ReadyState) (s : State) :
  sockets s !! sid = Some (mkWebSocket url tok st) ->
  sockets (closing sid s) !! sid = Some (mkWebSocket url tok CLOSED).
Proof.
  intros Hws. rewrite (closing_sockets sid url tok st s Hws). apply lookup_insert_eq.
Qed.

(** X19: a clean close never leads to a reconnect. When a socket that is
    not yet closed closes cleanly, it is closed, the heartbeat is stopped,
    no timeout is set and the retry counter stays, whatever the counter is
    and however the "disconnected" listeners end; the closed socket stays
    the one in [websocket]. *)
Theorem clean_close_schedules_nothing (sid : nat) (url tok : string) (st : ReadyState)
    (s : State) :
  sockets s !! sid = Some (mkWebSocket url tok st) ->
  st <> CLOSED ->
  let s' := exec (deliver (SocketClose sid true)) s in
  sockets s' !! sid = Some (mkWebSocket url tok CLOSED) /\
  heartbeatInterval s' = None /\
  timers s' = match heartbeatInterval s with
              | Some tid => delete tid (timers s)
              | None => timers s
              end /\
  timeouts_set (trace s') = timeouts_set (trace s) /\
  reconnectAttempts s' = reconnectAttempts s /\
  websocket s' = websocket s.
Proof.
  intros Hws Hst. cbn zeta.
  destruct (close_without_retry sid url tok st true s Hws Hst) as (tr & -> & Htr);
    [by left|].
  destruct (closing_frame sid s) as (_ & Hn & Hw & _ & _ & _ & _ & Hh).
  split; [exact (closing_lookup sid url tok st s Hws)|].
  split; [exact Hh|]. split.
  - change (timers (set_trace tr ?x)) with (timers x).
    unfold closing. rewrite heartbeat_stopped_timers. unfold set_readyState.
    by rewrite Hws.
  - split; [exact Htr|]. split; [exact Hn | exact Hw].
Qed.

Lemma clean_close_schedules_nothing_witness :
  timeouts_set (trace (exec (deliver (SocketClose 0%nat true)) connected)) =
    timeouts_set (trace connected).
Proof.
  apply (clean_close_schedules_nothing 0%nat "wss://host" "secret" OPEN connected).
  - reflexivity.
  - discriminate.
Defined.

(** X20: a "disconnected" listener that throws stops the reconnection.
    On an unclean close with attempts left, when the listeners of
    "disconnected" end with an exception, the handler ends with it: the
    socket is closed and the heartbeat stopped, but no reconnect is
    scheduled and the retry counter is not raised. *)
Theorem throwing_listener_prevents_reconnect (sid : nat) (url tok : string)
    (st : ReadyState) (s : State) (listeners : list Callback) (err : string) :
  sockets s !! sid = Some (mkWebSocket url tok st) ->
  st <> CLOSED ->
  reconnectAttempts s < maxReconnectAttempts ->
  eventListeners s !! "disconnected" = Some listeners ->
  forEach_outcome listeners (PCloseEvent false) = Throws err ->
  let s' := exec (deliver (SocketClose sid false)) s in
  fst (deliver (SocketClose sid false) s) = Throws err /\
  sockets s' !! sid = Some (mkWebSocket url tok CLOSED) /\
  heartbeatInterval s' = None /\
  timeouts_set (trace s') = timeouts_set (trace s) /\
  (forall tid t, timers s' !! tid = Some t -> timers s !! tid = Some t) /\
  reconnectAttempts s' = reconnectAttempts s.
Proof.
  intros Hws Hst _ Hl Hthrow. cbn zeta. unfold exec.
  rewrite (deliver_close_live sid url tok st false s Hws Hst).
  destruct (closing_frame sid s) as (Htr & Hn & _ & _ & _ & _ & Hls & Hh).
  rewrite emit_spec, Hls, Hl, Hthrow. cbn [fst snd].
  split; [reflexivity|].
  split; [exact (closing_lookup sid url tok st s Hws)|].
  split; [exact Hh|]. split.
  - change (trace (set_trace ?tr _)) with tr.
    by rewrite timeouts_set_app, timeouts_set_called, app_nil_r.
  - split; [|exact Hn].
    intros tid t. change (timers (set_trace _ ?x)) with (timers x).
    unfold closing. rewrite heartbeat_stopped_timers. unfold set_readyState.
    rewrite Hws. cbn. destruct (heartbeatInterval s); [|done].
    intros Ht. by apply lookup_delete_Some in Ht as [_ Ht].
Qed.

Lemma throwing_listener_prevents_reconnect_witness :
  fst (deliver (SocketClose 0%nat false) (exec (on "disconnected" failing) connected))
    = Throws "boom" /\
  timeouts_set (trace (exec (deliver (SocketClose 0%nat false))
                            (exec (on "disconnected" failing) connected)))
    = timeouts_set (trace (exec (on "disconnected" failing) connected)).
Proof.
  destruct (throwing_listener_prevents_reconnect 0%nat "wss://host" "secret" OPEN
              (exec (on "disconnected" failing) connected) [failing] "boom")
    as (H1 & _ & _ & H2 & _).
  - reflexivity.
  - discriminate.
  - by vm_compute.
  - by vm_compute.
  - reflexivity.
  - split; [exact H1 | exact H2].
Defined.

(** The state in which the "connected" listeners are called after socket
    [sid] has opened. *)
Lemma deliver_open_connecting (sid : nat) (url tok : string) (s : State) :
  sockets s !! sid = Some (mkWebSocket url tok CONNECTING) ->
  exists tr,
    exec (deliver (SocketOpen sid)) s =
      set_trace tr
        (set_heartbeatInterval (Some (next_timer s))
           (set_next_timer (S (next_timer s))
              (set_timers (<[next_timer s := HeartbeatTimer]> (timers s))
                 (set_reconnectAttempts 0
                    (set_sockets (<[sid := mkWebSocket url tok OPEN]> (sockets s)) s))))) /\
    timeouts_set tr = timeouts_set (trace s).
Proof.
  intros Hws. unfold exec, deliver, bind at 1, gets at 1. rewrite Hws.
  unfold bind at 1, modify at 1, onopen, bind at 1, modify at 1.
  unfold startHeartbeat, new_timer, bind, gets, modify, effect, modify, ret.
  cbn [fst snd]. unfold set_readyState. rewrite Hws.
  rewrite emit_spec. cbn.
  destruct (eventListeners s !! "connected") as [l|]; cbn.
  - eexists. split; [reflexivity|]. cbn.
    rewrite !timeouts_set_app, timeouts_set_called.
    change (timeouts_set [SetInterval ?a ?b]) with (@nil Z). by rewrite !app_nil_r.
  - eexists. split; [reflexivity|]. cbn.
    rewrite timeouts_set_app.
    change (timeouts_set [SetInterval ?a ?b]) with (@nil Z). by rewrite app_nil_r.
Qed.

(** X21: a connection that opens resets the backoff. Provided the
    "disconnected" listeners return normally, whatever the retry counter
    was (also when it was used up), once the socket has opened an unclean
    close counts as the first failure again: the counter is 1 and the
    reconnect is scheduled after 2000 ms. *)
Theorem open_resets_backoff (sid : nat) (url tok : string) (s : State) :
  sockets s !! sid = Some (mkWebSocket url tok CONNECTING) ->
  quiet_on_disconnect s ->
  let s' := run [SocketOpen sid; SocketClose sid false] s in
  reconnectAttempts s' = 1 /\
  timeouts_set (trace s') = timeouts_set (trace s) ++ [2000].
Proof.
  intros Hws Hq. cbn zeta. unfold run. cbn [fold_left].
  destruct (deliver_open_connecting sid url tok s Hws) as (tr & -> & Htr).
  set (s1 := set_trace tr _).
  destruct (close_with_retry sid url tok OPEN s1) as (tr' & -> & Htr').
  - apply lookup_insert_eq.
  - discriminate.
  - by vm_compute.
  - exact Hq.
  - split; [reflexivity|].
    change (trace (set_trace tr' _)) with tr'. rewrite Htr'.
    change (trace s1) with tr. by rewrite Htr.
Qed.

Lemma open_resets_backoff_witness :
  reconnectAttempts (run [SocketOpen 0%nat; SocketClose 0%nat false] connecting) = 1 /\
  timeouts_set (trace (run [SocketOpen 0%nat; SocketClose 0%nat false] connecting)) =
    timeouts_set (trace connecting) ++ [2000].
Proof.
  apply (open_resets_backoff 0%nat "wss://host" "secret" connecting).
  - reflexivity.
  - intros wasClean. constructor.
Defined.

(** X22: only the last heartbeat interval can be stopped. When two sockets
    open one after the other, the second [startHeartbeat] overwrites the
    stored handle, so after [disconnect()] the stored handle is cleared but
    the first interval is still registered. *)
Theorem second_open_leaks_heartbeat (sid1 sid2 : nat) (url1 tok1 url2 tok2 : string)
    (s : State) :
  sockets s !! sid1 = Some (mkWebSocket url1 tok1 CONNECTING) ->
  sockets s !! sid2 = Some (mkWebSocket url2 tok2 CONNECTING) ->
  sid1 <> sid2 ->
  let s' := exec disconnect (run [SocketOpen sid1; SocketOpen sid2] s) in
  heartbeatInterval s' = None /\
  timers s' !! next_timer s = Some HeartbeatTimer.
Proof.
  intros H1 H2 Hne. cbn zeta. unfold run. cbn [fold_left].
  destruct (deliver_open_connecting sid1 url1 tok1 s H1) as (tr1 & -> & _).
  set (s1 := set_trace tr1 _).
  assert (H2' : sockets s1 !! sid2 = Some (mkWebSocket url2 tok2 CONNECTING)).
  { subst s1. cbn. by rewrite lookup_insert_ne. }
  destruct (deliver_open_connecting sid2 url2 tok2 s1 H2') as (tr2 & -> & _).
  destruct (disconnect_timers (set_trace tr2
              (set_heartbeatInterval (Some (next_timer s1))
                 (set_next_timer (S (next_timer s1))
                    (set_timers (<[next_timer s1 := HeartbeatTimer]> (timers s1))
                       (set_reconnectAttempts 0
                          (set_sockets (<[sid2 := mkWebSocket url2 tok2 OPEN]> (sockets s1))
                             s1)))))))
    as (_ & -> & ->).
  split; [reflexivity|]. cbn.
  rewrite lookup_delete_ne by lia. rewrite lookup_insert_ne by lia.
  apply lookup_insert_eq.
Qed.

Lemma second_open_leaks_heartbeat_witness :
  let s := exec (connect "wss://other" "secret") connecting in
  heartbeatInterval (exec disconnect (run [SocketOpen 0%nat; SocketOpen 1%nat] s)) = None /\
  timers (exec disconnect (run [SocketOpen 0%nat; SocketOpen 1%nat] s)) !! next_timer s
    = Some HeartbeatTimer.
Proof.
  apply (second_open_leaks_heartbeat 0%nat 1%nat "wss://host" "secret" "wss://other" "secret"
           (exec (connect "wss://other" "secret") connecting)).
  - reflexivity.
  - reflexivity.
  - discriminate.
Defined.

(** X23: a reconnect timeout fires once, and a retry that cannot even be
    started ends the reconnection silently. After the timeout has come due
    it is no longer pending, and its coming due again does nothing. When
    the constructor rejects the URL at that moment, no socket is made, no
    further timeout is set and no listener is called: the timer is removed
    and nothing else changes. *)
Theorem reconnect_timeout_fires_once (tid : nat) (delay now now' : Z)
    (url tok : string) (s : State) :
  timers s !! tid = Some (ReconnectTimer delay url tok) ->
  let s' := exec (deliver (TimerFire tid now)) s in
  timers s' = delete tid (timers s) /\
  deliver (TimerFire tid now') s' = (Returns tt, s') /\
  (accepts_url s (String.append url (String.append "?token=" tok)) = false ->
   s' = set_timers (delete tid (timers s)) s).
Proof.
  intros Ht. cbn zeta.
  assert (Hs : exec (deliver (TimerFire tid now)) s =
               exec (connect url tok) (set_timers (delete tid (timers s)) s)).
  { unfold exec, deliver, bind at 1, gets at 1. rewrite Ht.
    unfold bind at 1, modify at 1, bind at 1.
    by destruct (connect url tok (set_timers (delete tid (timers s)) s)) as [[b|e] s1]. }
  rewrite Hs.
  assert (Htm : timers (exec (connect url tok) (set_timers (delete tid (timers s)) s))
                = delete tid (timers s)).
  { unfold exec, connect, bind, gets, modify. cbn.
    by destruct (accepts_url s _). }
  split; [exact Htm|]. split.
  - unfold deliver, bind, gets. rewrite Htm, lookup_delete_eq. reflexivity.
  - intros Hacc. unfold exec, connect, bind, gets. cbn. by rewrite Hacc.
Qed.

Lemma reconnect_timeout_fires_once_witness :
  timers (exec (deliver (TimerFire 1%nat 5)) dropped) = delete 1%nat (timers dropped) /\
  deliver (TimerFire 1%nat 9) (exec (deliver (TimerFire 1%nat 5)) dropped)
    = (Returns tt, exec (deliver (TimerFire 1%nat 5)) dropped).
Proof.
  destruct (reconnect_timeout_fires_once 1%nat 2000 5 9 "wss://host" "secret" dropped)
    as (H1 & H2 & _).
  - by vm_compute.
  - split; [exact H1 | exact H2].
Defined.

Lemma disconnect_live (sid : nat) (url tok : string) (st : ReadyState) (s : State) :
  websocket s = Some sid ->
  sockets s !! sid = Some (mkWebSocket url tok st) ->
  st = CONNECTING \/ st = OPEN ->
  exec disconnect s =
    set_webrtcConnections ∅
      (heartbeat_stopped
         (set_websocket None
            (set_sockets (<[sid := mkWebSocket url tok CLOSING]> (sockets s))
               (set_trace (trace s ++ [SocketClosed sid 1000]) s)))).
Proof.
  intros Hw Hws Hst. unfold exec, disconnect, bind at 1, gets at 1. rewrite Hw.
  unfold bind, ws_close, bind, effect, modify. cbn [fst snd].
  rewrite stopHeartbeat_spec. cbn [fst snd].
  change (sockets (set_trace ?tr s)) with (sockets s). rewrite Hws.
  unfold set_readyState.
  change (sockets (set_trace ?tr s)) with (sockets s). rewrite Hws.
  by destruct Hst as [-> | ->].
Qed.

(** X24: [disconnect()] does not disarm the socket's [onclose] handler.
    After [disconnect()] on a connecting or open socket, if the browser
    then reports the close as unclean (as it does for a socket closed
    while connecting), attempts are left and the "disconnected" listeners
    return normally, the manager counts a failure and schedules a
    reconnect, although [websocket] has been set to [null]. *)
Theorem unclean_close_after_disconnect_reconnects (sid : nat) (url tok : string)
    (st : ReadyState) (s : State) :
  websocket s = Some sid ->
  sockets s !! sid = Some (mkWebSocket url tok st) ->
  st = CONNECTING \/ st = OPEN ->
  reconnectAttempts s < maxReconnectAttempts ->
  quiet_on_disconnect s ->
  let s1 := exec disconnect s in
  let s2 := exec (deliver (SocketClose sid false)) s1 in
  websocket s1 = None /\ websocket s2 = None /\
  reconnectAttempts s2 = reconnectAttempts s + 1 /\
  timers s2 !! next_timer s =
    Some (ReconnectTimer (reconnect_delay (reconnectAttempts s + 1)) url tok) /\
  timeouts_set (trace s2) =
    timeouts_set (trace s) ++ [reconnect_delay (reconnectAttempts s + 1)].
Proof.
  intros Hw Hws Hst Hlt Hq. cbn zeta.
  rewrite (disconnect_live sid url tok st s Hw Hws Hst).
  set (s0 := set_websocket None _).
  destruct (heartbeat_stopped_frame s0)
    as (Hw0 & Hs0 & _ & Hnt0 & Hn0 & _ & _ & _ & _ & _ & _ & Hl0).
  set (s1 := set_webrtcConnections ∅ (heartbeat_stopped s0)).
  assert (Hws1 : sockets s1 !! sid = Some (mkWebSocket url tok CLOSING)).
  { subst s1. change (sockets (set_webrtcConnections ∅ ?x)) with (sockets x).
    rewrite Hs0. subst s0. cbn. apply lookup_insert_eq. }
  assert (Hn1 : reconnectAttempts s1 = reconnectAttempts s) by exact Hn0.
  assert (Hnt1 : next_timer s1 = next_timer s) by exact Hnt0.
  assert (Hq1 : quiet_on_disconnect s1).
  { intros wasClean. subst s1.
    change (eventListeners (set_webrtcConnections ∅ ?x)) with (eventListeners x).
    rewrite Hl0. apply Hq. }
  assert (Htr1 : timeouts_set (trace s1) = timeouts_set (trace s)).
  { subst s1. change (trace (set_webrtcConnections ∅ ?x)) with (trace x).
    rewrite heartbeat_stopped_timeouts. subst s0. cbn.
    rewrite timeouts_set_app.
    change (timeouts_set [SocketClosed ?a ?b]) with (@nil Z). apply app_nil_r. }
  destruct (close_with_retry sid url tok CLOSING s1 Hws1) as (tr & -> & Htr);
    [discriminate | by rewrite Hn1 | exact Hq1 |].
  destruct (closing_frame sid s1) as (_ & _ & Hwc & _).
  assert (Hw1 : websocket s1 = None).
  { subst s1. change (websocket (heartbeat_stopped s0) = None). by rewrite Hw0. }
  split; [exact Hw1|].
  split; [change (websocket (closing sid s1) = None); by rewrite Hwc|].
  rewrite Hn1, Hnt1 in *.
  split; [reflexivity|]. split.
  - change (timers (set_trace tr (set_next_timer ?n (set_timers ?m ?x)))) with m.
    apply lookup_insert_eq.
  - change (trace (set_trace tr ?x)) with tr. by rewrite Htr, Htr1.
Qed.

Lemma unclean_close_after_disconnect_reconnects_witness :
  timeouts_set (trace (exec (deliver (SocketClose 0%nat false)) (exec disconnect connecting)))
    = timeouts_set (trace connecting) ++ [reconnect_delay (reconnectAttempts connecting + 1)].
Proof.
  apply (unclean_close_after_disconnect_reconnects 0%nat "wss://host" "secret" CONNECTING
           connecting).
  - reflexivity.
  - reflexivity.
  - by left.
  - by vm_compute.
  - intros wasClean. constructor.
Defined.

Lemma deliver_keeps_session (ev : Event) :
  (forall sid data, ev <> SocketMessage sid data) ->
  keeps same_session (deliver ev).
Proof.
  assert (Hrs : forall sid st s, same_session s (set_readyState sid st s)).
  { intros sid st s. unfold set_readyState. destruct (sockets s !! sid); repeat split. }
  intros Hev. destruct ev as [sid|sid data|sid|sid wasClean|tid now]; unfold deliver.
  - repeat keeps_step; try apply frame_refl; try apply Hrs.
    unfold onopen, startHeartbeat, new_timer. repeat keeps_step; repeat split.
  - by destruct (Hev sid data).
  - unfold onerror. repeat keeps_step.
  - repeat keeps_step; try apply frame_refl; try apply Hrs;
      unfold onclose, reconnect, new_timer;
      repeat (keeps_step || (apply stopHeartbeat_keeps; [tc_solve|intros..]));
      repeat split.
  - repeat keeps_step; try apply frame_refl;
      try (intros; unfold same_session; cbn; by repeat split).
    + unfold heartbeat_tick. repeat keeps_step.
    + unfold connect. repeat keeps_step; repeat split.
Qed.

(** X25: only messages change the session. A socket opening, failing or
    closing and a timer coming due leave the current user, the current
    room, the presence table, both logs and the listeners as they were;
    in particular a lost connection does not clear the room or the
    table. *)
Theorem connection_events_leave_session (ev : Event) (s : State) :
  (forall sid data, ev <> SocketMessage sid data) ->
  let s' := exec (deliver ev) s in
  currentUser s' = currentUser s /\
  currentRoom s' = currentRoom s /\
  users s' = users s /\
  messages s' = messages s /\
  edits s' = edits s /\
  eventListeners s' = eventListeners s.
Proof. intros Hev. exact (deliver_keeps_session ev Hev s). Qed.

Lemma connection_events_leave_session_witness :
  currentRoom (exec (deliver (SocketClose 0%nat false)) online_in_room)
    = currentRoom online_in_room /\
  users (exec (deliver (SocketClose 0%nat false)) online_in_room) = users online_in_room.
Proof.
  destruct (connection_events_leave_session (SocketClose 0%nat false) online_in_room)
    as (_ & H1 & H2 & _).
  - intros sid data. discriminate.
  - split; [exact H1 | exact H2].
Defined.
